(** * A2A protocol: directory, agent SDK and task bridge

    A shallow embedding of [a2a_directory.py], [a2a_sdk.py] and
    [a2a_bridge.py], and the properties of the registry, the task
    envelope protocol and the keyword router proved over it.

    Conventions of the embedding:
    - a Python [str] is a Rocq [string] whose characters are read as the
      code points 0..255;
    - a value produced by [json.loads] is a [json]; numbers are integers;
    - a Python [dict] is an association list in insertion order with
      unique keys ([dict_set] overwrites in place, as Python does);
    - a raised exception is the [Raise] case of [result];
    - everything the code takes from outside (the clock, the uuid, the
      network, the backend process) is an explicit argument. *)

From Stdlib Require Import ZArith Lia Ascii String.
From stdpp Require Import base list strings gmap pretty.

Local Open Scope string_scope.
Local Open Scope list_scope.
Local Open Scope Z_scope.

(** ** Python values and primitives *)

Module Py.

#[warning="-register-all"]
Inductive json : Type :=
  | JNull
  | JBool (b : bool)
  | JNum (z : Z)
  | JStr (s : string)
  | JArr (l : list json)
  | JObj (d : list (string * json)).

Inductive exn : Type :=
  | AttributeError
  | TypeError
  | KeyError (k : string)
  | ValueError (msg : string)
  | RuntimeError (msg : string)
  | IndexError
  | UnicodeDecodeError
  | UnicodeEncodeError
  | OtherError (msg : string).

Inductive result (A : Type) : Type :=
  | Ok (a : A)
  | Raise (e : exn).
Arguments Ok {A} a.
Arguments Raise {A} e.

Definition bind {A B} (r : result A) (k : A → result B) : result B :=
  match r with
  | Ok a => k a
  | Raise e => Raise e
  end.

#[global] Instance result_ret : MRet result := @Ok.
#[global] Instance result_bind : MBind result := fun A B k r => bind r k.

(** *** Dictionaries with string keys, in insertion order *)

Definition dict (V : Type) : Type := list (string * V).

Fixpoint dict_get {V} (k : string) (d : dict V) : option V :=
  match d with
  | [] => None
  | (k', v) :: r => if String.eqb k k' then Some v else dict_get k r
  end.

Definition dict_mem {V} (k : string) (d : dict V) : bool :=
  match dict_get k d with Some _ => true | None => false end.

(** [d[k] = v]: an existing key keeps its position, a new key goes last. *)
Fixpoint dict_set {V} (k : string) (v : V) (d : dict V) : dict V :=
  match d with
  | [] => [(k, v)]
  | (k', v') :: r =>
      if String.eqb k k' then (k, v) :: r else (k', v') :: dict_set k v r
  end.

Definition dict_keys {V} (d : dict V) : list string := map fst d.
Definition dict_values {V} (d : dict V) : list V := map snd d.

(** *** Strings *)

Definition in_range (lo hi n : N) : bool := ((lo <=? n) && (n <=? hi))%N.

(** [str.lower] on one character: A-Z, and the Latin-1 capitals except
    the multiplication sign. *)
Definition lower_char (c : ascii) : ascii :=
  let n := N_of_ascii c in
  if in_range 65 90 n || (in_range 192 222 n && negb (n =? 215)%N)
  then ascii_of_N (n + 32) else c.

Fixpoint lower (s : string) : string :=
  match s with
  | EmptyString => EmptyString
  | String c r => String (lower_char c) (lower r)
  end.

(** [kw in s] for two strings: [kw] occurs in [s] as a substring. *)
Fixpoint contains (kw s : string) : bool :=
  String.prefix kw s ||
  match s with
  | EmptyString => false
  | String _ r => contains kw r
  end.

(** [any(kw in s for kw in kws)] *)
Definition any_in (kws : list string) (s : string) : bool :=
  existsb (fun kw => contains kw s) kws.

Definition is_space (c : ascii) : bool :=
  let n := N_of_ascii c in
  in_range 9 13 n || in_range 28 32 n || (n =? 133)%N || (n =? 160)%N.

Fixpoint lstrip (s : string) : string :=
  match s with
  | EmptyString => EmptyString
  | String c r => if is_space c then lstrip r else s
  end.

Fixpoint rstrip_with (p : ascii → bool) (s : string) : string :=
  match s with
  | EmptyString => EmptyString
  | String c r =>
      match rstrip_with p r with
      | EmptyString => if p c then EmptyString else String c EmptyString
      | r' => String c r'
      end
  end.

(** [s.strip()] *)
Definition strip (s : string) : string := rstrip_with is_space (lstrip s).

(** [s.rstrip("/")] *)
Definition rstrip_slash (s : string) : string :=
  rstrip_with (fun c => Ascii.eqb c "/") s.

(** [s.split(sep)] for a one-character separator. *)
Fixpoint split (sep : ascii) (s : string) : list string :=
  match s with
  | EmptyString => [EmptyString]
  | String c r =>
      if Ascii.eqb c sep then EmptyString :: split sep r
      else match split sep r with
           | [] => [String c EmptyString]
           | w :: ws => String c w :: ws
           end
  end.

(** [l[-1]] on the result of a split, which is never empty. *)
Definition last_item (l : list string) : string := List.last l EmptyString.

(** [s.startswith(p)] and the rest of [s] after [p]. *)
Fixpoint strip_prefix (p s : string) : option string :=
  match p, s with
  | EmptyString, _ => Some s
  | String a p', String b s' =>
      if Ascii.eqb a b then strip_prefix p' s' else None
  | String _ _, EmptyString => None
  end.

Definition hex_digit (n : N) : ascii :=
  ascii_of_N (if (n <? 10)%N then 48 + n else 87 + n).

Definition hex2 (c : ascii) : string :=
  let n := N_of_ascii c in
  String (hex_digit (n / 16)) (String (hex_digit (n mod 16)) EmptyString).

Definition chr (n : N) : ascii := ascii_of_N n.
Definition str1 (c : ascii) : string := String c EmptyString.

Definition has_char (c : ascii) (s : string) : bool :=
  existsb (Ascii.eqb c) (list_ascii_of_string s).

Definition str_map (f : ascii → string) (s : string) : string :=
  String.concat "" (map f (list_ascii_of_string s)).

(** *** [repr] and [str] *)

Definition printable (c : ascii) : bool :=
  let n := N_of_ascii c in
  negb (n <? 32)%N && negb (in_range 127 160 n) && negb (n =? 173)%N.

Definition repr_char (quote : ascii) (c : ascii) : string :=
  if Ascii.eqb c "\" then "\\"
  else if Ascii.eqb c quote then String "\" (str1 c)
  else if Ascii.eqb c (chr 9) then "\t"
  else if Ascii.eqb c (chr 10) then "\n"
  else if Ascii.eqb c (chr 13) then "\r"
  else if printable c then str1 c
  else "\x" +:+ hex2 c.

(** [repr] of a [str]: single quotes, unless the text has a single quote
    and no double quote. *)
Definition repr_str (s : string) : string :=
  let quote := if has_char "'" s && negb (has_char (chr 34) s)
               then chr 34 else "'"%char in
  str1 quote +:+ str_map (repr_char quote) s +:+ str1 quote.

Definition join (sep : string) (l : list string) : string :=
  String.concat sep l.

Fixpoint repr (j : json) : string :=
  match j with
  | JNull => "None"
  | JBool true => "True"
  | JBool false => "False"
  | JNum z => pretty z
  | JStr s => repr_str s
  | JArr l => "[" +:+ join ", " (map repr l) +:+ "]"
  | JObj d =>
      "{" +:+ join ", " (map (fun kv => repr_str (fst kv) +:+ ": " +:+ repr (snd kv)) d)
          +:+ "}"
  end.

(** [str(v)]: a string is itself, anything else is its [repr]. *)
Definition str (j : json) : string :=
  match j with
  | JStr s => s
  | _ => repr j
  end.

(** *** [json.dumps] with its default separators and [ensure_ascii] *)

Definition dumps_char (c : ascii) : string :=
  let n := N_of_ascii c in
  if Ascii.eqb c (chr 34) then String "\" (str1 (chr 34))
  else if Ascii.eqb c "\" then "\\"
  else if Ascii.eqb c (chr 10) then "\n"
  else if Ascii.eqb c (chr 13) then "\r"
  else if Ascii.eqb c (chr 9) then "\t"
  else if Ascii.eqb c (chr 8) then "\b"
  else if Ascii.eqb c (chr 12) then "\f"
  else if in_range 32 126 n then str1 c
  else "\u00" +:+ hex2 c.

Definition dumps_str (s : string) : string :=
  str1 (chr 34) +:+ str_map dumps_char s +:+ str1 (chr 34).

Fixpoint dumps (j : json) : string :=
  match j with
  | JNull => "null"
  | JBool true => "true"
  | JBool false => "false"
  | JNum z => pretty z
  | JStr s => dumps_str s
  | JArr l => "[" +:+ join ", " (map dumps l) +:+ "]"
  | JObj d =>
      "{" +:+ join ", " (map (fun kv => dumps_str (fst kv) +:+ ": " +:+ dumps (snd kv)) d)
          +:+ "}"
  end.

(** *** Operators on parsed values *)

(** [v == s] for a string literal [s]. *)
Definition eq_str (v : json) (s : string) : bool :=
  match v with
  | JStr s' => String.eqb s' s
  | _ => false
  end.

(** Truth value of a value, as [if v:] takes it. *)
Definition truthy (v : json) : bool :=
  match v with
  | JNull => false
  | JBool b => b
  | JNum z => negb (z =? 0)
  | JStr s => negb (String.eqb s "")
  | JArr l => match l with [] => false | _ => true end
  | JObj d => match d with [] => false | _ => true end
  end.

(** [v.get(k, default)]: only a dict has [get]. *)
Definition get (v : json) (k : string) (dflt : json) : result json :=
  match v with
  | JObj d => Ok (default dflt (dict_get k d))
  | _ => Raise AttributeError
  end.

(** [k in v] for a string literal [k]. *)
Definition has (k : string) (v : json) : result bool :=
  match v with
  | JObj d => Ok (dict_mem k d)
  | JArr l => Ok (existsb (fun x => eq_str x k) l)
  | JStr s => Ok (contains k s)
  | _ => Raise TypeError
  end.

(** [v[k]] for a string literal [k]. *)
Definition item (v : json) (k : string) : result json :=
  match v with
  | JObj d => match dict_get k d with Some x => Ok x | None => Raise (KeyError k) end
  | _ => Raise TypeError
  end.

(** [v[0]] *)
Definition item0 (v : json) : result json :=
  match v with
  | JArr (x :: _) => Ok x
  | JArr [] => Raise IndexError
  | JStr (String c _) => Ok (JStr (str1 c))
  | JStr EmptyString => Raise IndexError
  | JObj _ => Raise (KeyError "0")
  | _ => Raise TypeError
  end.

End Py.

Import Py.

(** ** a2a_directory.py *)

Module Directory.

(** The value stored in [AGENTS] by [_handle_register]. *)
Record AgentRecord : Type := {
  agentId : string;
  name : string;
  capabilities : list string;
  endpoint : string;
  registeredAt : string
}.

(** The body of [POST /a2a/register]: each required key is present or
    not; a present key holds a value of the type the protocol gives it. *)
Record RegisterRequest : Type := {
  rq_agentId : option string;
  rq_name : option string;
  rq_capabilities : option (list string);
  rq_endpoint : option string
}.

(** The body of [POST /a2a/discover]. *)
Record DiscoverRequest : Type := {
  dq_capabilities : option (list string)
}.

(** What [_send_json] is given: a status and one of the four payloads. *)
Inductive payload : Type :=
  | Error (msg : string)
  | Registered (agent_id : string)
  | Agents (agents : list AgentRecord)
  | Agent (agent : AgentRecord).

Definition response : Type := Z * payload.

Definition required : list string := ["agentId"; "name"; "capabilities"; "endpoint"].

(** [f in request] *)
Definition has_field (request : RegisterRequest) (f : string) : bool :=
  if String.eqb f "agentId" then bool_decide (is_Some (rq_agentId request))
  else if String.eqb f "name" then bool_decide (is_Some (rq_name request))
  else if String.eqb f "capabilities" then bool_decide (is_Some (rq_capabilities request))
  else if String.eqb f "endpoint" then bool_decide (is_Some (rq_endpoint request))
  else false.

Definition missing (request : RegisterRequest) : list string :=
  List.filter (fun f => negb (has_field request f)) required.

(** [now] is [datetime.utcnow().isoformat()] as read by this call. *)
Definition _handle_register (now : string) (request : RegisterRequest)
    (AGENTS : dict AgentRecord) : dict AgentRecord * response :=
  match rq_agentId request, rq_name request,
        rq_capabilities request, rq_endpoint request with
  | Some agent_id, Some nm, Some caps, Some ep =>
      (dict_set agent_id
         {| agentId := agent_id; name := nm; capabilities := caps;
            endpoint := ep; registeredAt := now +:+ "Z" |} AGENTS,
       (200, Registered agent_id))
  | _, _, _, _ =>
      (AGENTS,
       (400, Error ("Missing fields: " +:+ repr (JArr (map JStr (missing request))))))
  end.

(** [any(cap in agent_caps for cap in wanted)] with
    [agent_caps = set(agent["capabilities"])] *)
Definition matches_wanted (wanted : list string) (agent : AgentRecord) : bool :=
  let agent_caps : gset string := list_to_set (capabilities agent) in
  existsb (fun cap => bool_decide (cap ∈ agent_caps)) wanted.

(** The loop over [AGENTS.items()], appending each match. *)
Definition discover_loop (wanted : list string) (AGENTS : dict AgentRecord)
    : list AgentRecord :=
  fold_left
    (fun matches item =>
       if matches_wanted wanted (snd item) then (matches ++ [snd item])%list else matches)
    AGENTS [].

Definition _handle_discover (request : DiscoverRequest)
    (AGENTS : dict AgentRecord) : response :=
  let wanted := default [] (dq_capabilities request) in
  match wanted with
  | [] => (400, Error "No capabilities specified")
  | _ => (200, Agents (discover_loop wanted AGENTS))
  end.

Definition _handle_list_agents (AGENTS : dict AgentRecord) : response :=
  (200, Agents (dict_values AGENTS)).

Definition _handle_get_agent (agent_id : string) (AGENTS : dict AgentRecord)
    : response :=
  match dict_get agent_id AGENTS with
  | Some agent => (200, Agent agent)
  | None => (404, Error "Agent not found")
  end.

(** The text before the first [c]. *)
Fixpoint cut_at (c : ascii) (s : string) : string :=
  match s with
  | EmptyString => EmptyString
  | String a r => if Ascii.eqb a c then EmptyString else String a (cut_at c r)
  end.

(** The path parameters: the text from the first [;] of the last segment. *)
Fixpoint cut_params (s : string) : string :=
  match s with
  | EmptyString => EmptyString
  | String a r =>
      if has_char "/" r then String a (cut_params r) else cut_at ";" (String a r)
  end.

(** A request target in origin form: it begins with one slash, not two. *)
Definition origin_form (target : string) : bool :=
  match target with
  | String c rest =>
      Ascii.eqb c "/" &&
      negb (match rest with String c' _ => Ascii.eqb c' "/" | EmptyString => false end)
  | EmptyString => false
  end.

(** [urlparse(self.path).path] for a request target in origin form: it
    has no scheme and no host, and the fragment, the query and the
    parameters are cut. What [urlparse] makes of any other target (an
    absolute URL, a leading double slash) is not modelled: [None]. A target
    has no whitespace, the request line being split at it. *)
Definition urlparse_path (target : string) : option string :=
  if origin_form target then Some (cut_params (cut_at "?" (cut_at "#" target)))
  else None.

(** [do_GET] from [parsed.path] on. *)
Definition route_GET (parsed_path : string) (AGENTS : dict AgentRecord) : response :=
  if String.eqb parsed_path "/a2a/agents" then _handle_list_agents AGENTS
  else if String.prefix "/a2a/agents/" parsed_path then
    let agent_id := last_item (split "/" parsed_path) in
    _handle_get_agent agent_id AGENTS
  else (404, Error "Unknown endpoint").

(** [path] is [self.path], the target of the request line; the answer is
    [None] where [urlparse] is not modelled. *)
Definition do_GET (path : string) (AGENTS : dict AgentRecord) : option response :=
  parsed_path ← urlparse_path path;
  Some (route_GET parsed_path AGENTS).

(** The JSON text [_send_json] writes, before [json.dumps]. *)
Definition agent_json (a : AgentRecord) : json :=
  JObj [("agentId", JStr (agentId a)); ("name", JStr (name a));
        ("capabilities", JArr (map JStr (capabilities a)));
        ("endpoint", JStr (endpoint a)); ("registeredAt", JStr (registeredAt a))].

Definition payload_json (p : payload) : json :=
  match p with
  | Error msg => JObj [("error", JStr msg)]
  | Registered agent_id =>
      JObj [("status", JStr "registered"); ("agentId", JStr agent_id)]
  | Agents l => JObj [("agents", JArr (map agent_json l))]
  | Agent a => agent_json a
  end.

(** The registry is a Python dict: its keys are unique, and
    [_handle_register] files every record under its own id. *)
Definition registry_inv (AGENTS : dict AgentRecord) : Prop :=
  NoDup (dict_keys AGENTS) ∧ Forall (fun kv => agentId (snd kv) = fst kv) AGENTS.

(** [_handle_discover] reads the key "capabilities" of the same body. *)
Definition as_discover (request : RegisterRequest) : DiscoverRequest :=
  {| dq_capabilities := rq_capabilities request |}.

(** A JSON value that is not an object. *)
Inductive plain_value : Type :=
  | VNull
  | VBool (b : bool)
  | VNum (z : Z)
  | VStr (s : string)
  | VArr (l : list json).

(** What a POST brings as its body, by the step of [do_POST] that
    settles it: a Content-Length that [int] refuses; bytes that are not
    UTF-8; text that is not JSON; a JSON value that is not an object; a
    JSON object, read at the protocol's types. A request without a body is
    the empty object. *)
Inductive body : Type :=
  | BadLength (header : string)
  | NotText
  | NotJson
  | Value (v : plain_value)
  | Object (request : RegisterRequest).

(** [_handle_register] on a value that is not an object: [f not in
    request] is a membership test on a list, a substring test on a string
    and a [TypeError] on the rest; [request["agentId"]] is a [TypeError]. *)
Definition register_value (v : plain_value) : result response :=
  let reject (present : string → bool) : result response :=
    match List.filter (fun f => negb (present f)) required with
    | [] => Raise TypeError
    | f :: fs =>
        Ok (400, Error ("Missing fields: " +:+ repr (JArr (map JStr (f :: fs)))))
    end in
  match v with
  | VArr l => reject (fun f => existsb (fun x => eq_str x f) l)
  | VStr s => reject (fun f => contains f s)
  | VNull | VBool _ | VNum _ => Raise TypeError
  end.

(** [do_POST] from [parsed.path] on, with the body read before it: the
    registry it leaves, and the response it sends or the exception that
    leaves it without one. The length and the decoding are outside the
    [try]; only [JSONDecodeError] is caught. *)
Definition route_POST (now : string) (parsed_path : string) (b : body)
    (AGENTS : dict AgentRecord) : dict AgentRecord * result response :=
  match b with
  | BadLength header =>
      (AGENTS,
       Raise (ValueError ("invalid literal for int() with base 10: " +:+ repr_str header)))
  | NotText => (AGENTS, Raise UnicodeDecodeError)
  | NotJson => (AGENTS, Ok (400, Error "Invalid JSON"))
  | Value v =>
      if String.eqb parsed_path "/a2a/register" then (AGENTS, register_value v)
      else if String.eqb parsed_path "/a2a/discover" then (AGENTS, Raise AttributeError)
      else (AGENTS, Ok (404, Error "Unknown endpoint"))
  | Object request =>
      if String.eqb parsed_path "/a2a/register" then
        let '(agents, r) := _handle_register now request AGENTS in (agents, Ok r)
      else if String.eqb parsed_path "/a2a/discover" then
        (AGENTS, Ok (_handle_discover (as_discover request) AGENTS))
      else (AGENTS, Ok (404, Error "Unknown endpoint"))
  end.

(** [do_POST]: [path] is [self.path]. A body that fails before the path
    is parsed needs no path; otherwise the answer is [None] where
    [urlparse] is not modelled. *)
Definition do_POST (now : string) (path : string) (b : body)
    (AGENTS : dict AgentRecord) : option (dict AgentRecord * result response) :=
  match b with
  | BadLength _ | NotText | NotJson => Some (route_POST now path b AGENTS)
  | Value _ | Object _ =>
      parsed_path ← urlparse_path path;
      Some (route_POST now parsed_path b AGENTS)
  end.

(** One POST as the server receives it: the clock, [parsed.path] of its
    target, the body. *)
Record post : Type := {
  post_now : string;
  post_path : string;
  post_body : body
}.

(** The registry after the server has handled the POSTs in turn. *)
Definition serve_posts (posts : list post) (AGENTS : dict AgentRecord)
    : dict AgentRecord :=
  fold_left (λ agents q, (route_POST (post_now q) (post_path q) (post_body q) agents).1)
            posts AGENTS.

End Directory.

(** ** a2a_sdk.py *)

Module SDK.

(** What [urllib.request.urlopen] followed by [json.loads] comes to: a
    parsed body, an [HTTPError] with its status and text, or any other
    exception (connection refused, a body that is not JSON, ...). *)
Inductive http_outcome : Type :=
  | HttpOk (body : json)
  | HTTPError (code : Z) (text : string)
  | HttpFail (e : exn).

Record network : Type := {
  http_get : string → http_outcome;
  http_post : string → json → http_outcome
}.

(** The requests a call puts on the wire, oldest first. *)
Inductive event : Type :=
  | EvGet (url : string)
  | EvPost (url : string) (data : json).

Definition io (A : Type) : Type := list event * result A.

Definition ret {A} (a : A) : io A := ([], Ok a).
Definition raise {A} (e : exn) : io A := ([], Raise e).
Definition lift {A} (r : result A) : io A := ([], r).

Definition io_bind {A B} (m : io A) (k : A → io B) : io B :=
  match m with
  | (t, Ok a) => let '(t', r) := k a in ((t ++ t')%list, r)
  | (t, Raise e) => (t, Raise e)
  end.

#[global] Instance io_mret : MRet io := @ret.
#[global] Instance io_mbind : MBind io := fun A B k m => io_bind m k.

(** A URL that is not a string is refused by [Request] before any
    connection is opened. *)
Definition _post (net : network) (url : json) (data : json) : io json :=
  match url with
  | JStr u =>
      ([EvPost u data],
       match http_post net u data with
       | HttpOk body => Ok body
       | HTTPError code text =>
           Ok (JObj [("error", JStr ("HTTP " +:+ pretty code)); ("message", JStr text)])
       | HttpFail e => Raise e
       end)
  | _ => raise (ValueError ("unknown url type: " +:+ repr_str (str url)))
  end.

Definition _get (net : network) (url : string) : io json :=
  ([EvGet url],
   match http_get net url with
   | HttpOk body => Ok body
   | HTTPError code _ => Ok (JObj [("error", JStr ("HTTP " +:+ pretty code))])
   | HttpFail e => Raise e
   end).

Record A2AAgent : Type := {
  agent_id : string;
  name : string;
  capabilities : list string;
  directory_url : string;
  endpoint : option string
}.

Definition __init__ (agent_id name : string) (capabilities : list string)
    (directory_url : string) : A2AAgent :=
  {| agent_id := agent_id; name := name; capabilities := capabilities;
     directory_url := rstrip_slash directory_url; endpoint := None |}.

Definition set_endpoint (self : A2AAgent) (e : string) : A2AAgent :=
  {| agent_id := agent_id self; name := name self;
     capabilities := capabilities self;
     directory_url := directory_url self; endpoint := Some e |}.

(** The body [register] posts. *)
Definition registration (self : A2AAgent) (endpoint : string) : json :=
  JObj [("agentId", JStr (agent_id self));
        ("name", JStr (name self));
        ("capabilities", JArr (map JStr (capabilities self)));
        ("endpoint", JStr endpoint)].

(** [register] returns the agent as the call leaves it and what the call
    itself does: the requests made and the value returned or raised. *)
Definition register (net : network) (self : A2AAgent) (endpoint : string)
    : A2AAgent * io json :=
  let self := set_endpoint self endpoint in
  (self,
   result ← _post net (JStr (directory_url self +:+ "/a2a/register"))
              (registration self endpoint);
   failed ← lift (has "error" result);
   if failed : bool then raise (RuntimeError ("Registration failed: " +:+ str result))
   else ret result).

(** [None] is [JNull]. *)
Definition discover (net : network) (self : A2AAgent)
    (wanted_capabilities : list string) : io json :=
  result ← _post net (JStr (directory_url self +:+ "/a2a/discover"))
             (JObj [("capabilities", JArr (map JStr wanted_capabilities))]);
  agents ← lift (get result "agents" (JArr []));
  if truthy agents then lift (item0 agents) else ret JNull.

(** [task_id] is [str(uuid.uuid4())] as drawn by this call. *)
Definition send_task (net : network) (self : A2AAgent) (task_id : string)
    (target_agent_id : string) (action : string) (input_data : json) : io json :=
  target ← _get net (directory_url self +:+ "/a2a/agents/" +:+ target_agent_id);
  absent ← lift (has "error" target);
  if absent : bool then raise (ValueError ("Agent not found: " +:+ target_agent_id))
  else
    target_endpoint ← lift (item target "endpoint");
    let task_request :=
      JObj [("jsonrpc", JStr "2.0");
            ("id", JStr task_id);
            ("method", JStr "a2a/task");
            ("params", JObj [("taskId", JStr task_id);
                             ("action", JStr action);
                             ("sender", JStr (agent_id self));
                             ("input", input_data)])] in
    _post net target_endpoint task_request.

(** *** The agent server *)

(** A task handler is called with keywords [action], [input_data],
    [sender]; it returns a value or raises. *)
Definition handler : Type := json → json → json → result json.

Record A2AServer : Type := {
  srv_agent_id : string;
  srv_name : string;
  srv_capabilities : list string;
  srv_port : Z;
  _task_handler : option handler;
  srv_endpoint : string
}.

Definition new_server (agent_id name : string) (capabilities : list string)
    (port : Z) : A2AServer :=
  {| srv_agent_id := agent_id; srv_name := name;
     srv_capabilities := capabilities; srv_port := port;
     _task_handler := None;
     srv_endpoint := "http://localhost:" +:+ pretty port |}.

Definition handle_task (self : A2AServer) (func : handler) : A2AServer :=
  {| srv_agent_id := srv_agent_id self; srv_name := srv_name self;
     srv_capabilities := srv_capabilities self; srv_port := srv_port self;
     _task_handler := Some func;
     srv_endpoint := srv_endpoint self |}.

(** One call of the handler: the arguments it was given. *)
Record call : Type := {
  call_action : json;
  call_input : json;
  call_sender : json
}.

Definition error_response (task_id : json) (code : Z) (message : string) : json :=
  JObj [("jsonrpc", JStr "2.0");
        ("id", task_id);
        ("error", JObj [("code", JNum code); ("message", JStr message)])].

(** [Handler.do_POST] on the parsed body, with the handler [run] has
    captured: the calls of the handler it makes, and the status and body
    it sends, or the exception that leaves it. *)
Definition do_POST (task_handler : option handler) (request : json)
    : list call * result (Z * json) :=
  match get request "method" (JStr ""), get request "id" JNull with
  | Raise e, _ | _, Raise e => ([], Raise e)
  | Ok jsonrpc_method, Ok task_id =>
      if eq_str jsonrpc_method "a2a/task" then
        match get request "params" (JObj []) with
        | Raise e => ([], Raise e)
        | Ok params =>
            match get params "action" JNull, get params "input" (JObj []),
                  get params "sender" JNull with
            | Ok task_action, Ok input_data, Ok sender =>
                match task_handler with
                | Some h =>
                    ([{| call_action := task_action; call_input := input_data;
                         call_sender := sender |}],
                     match h task_action input_data sender with
                     | Raise e => Raise e
                     | Ok result =>
                         task ← get params "taskId" JNull;
                         Ok (200,
                             JObj [("jsonrpc", JStr "2.0");
                                   ("id", task_id);
                                   ("result",
                                    JObj [("taskId", task);
                                          ("status", JStr "completed");
                                          ("output", result)])])
                     end)
                | None =>
                    ([], Ok (200, error_response task_id (-32001) "No handler registered"))
                end
            | Raise e, _, _ | _, Raise e, _ | _, _, Raise e => ([], Raise e)
            end
        end
      else ([], Ok (200, error_response task_id (-32601) "Method not found"))
  end.

(** [run] serves every request with the handler registered when it starts. *)
Definition serve (self : A2AServer) (request : json) : list call * result (Z * json) :=
  do_POST (_task_handler self) request.

End SDK.

(** ** a2a_bridge.py *)

Module Bridge.

(** What [subprocess.run(cmd, capture_output=True, text=True, timeout=t)]
    comes to: the process ends with a return code and its two streams, the
    timeout expires, or any other exception [e] is raised, with [str(e)]. *)
Inductive run_outcome : Type :=
  | Completed (returncode : Z) (stdout stderr : string)
  | TimeoutExpired
  | Failure (msg : string).

(** The backend: the outcome of running [cmd] under a timeout in seconds. *)
Definition backend : Type := list json → Z → run_outcome.

Definition target_dict (agent_id name : string) : json :=
  JObj [("agent_id", JStr agent_id); ("name", JStr name)].

Definition _determine_target_agent (action : string) (input_data : json) : json :=
  let action_lower := lower action in
  let input_str := lower (str input_data) in
  if any_in ["code"; "program"; "implement"; "build"; "function"] action_lower then
    target_dict "code" "Code Agent"
  else if contains "code" input_str || contains "program" input_str then
    target_dict "code" "Code Agent"
  else if any_in ["data"; "analyze"; "analytics"; "query"; "stats"] action_lower then
    target_dict "data" "Data Agent"
  else if contains "analyze" input_str || contains "analytics" input_str
          || contains "data" input_str then
    target_dict "data" "Data Agent"
  else if any_in ["api"; "integration"; "webhook"; "connect"] action_lower then
    target_dict "api" "API Agent"
  else if any_in ["research"; "search"; "find"] action_lower then
    target_dict "researcher" "Researcher"
  else if contains "research" input_str || contains "find" input_str then
    target_dict "researcher" "Researcher"
  else if any_in ["write"; "document"; "draft"; "edit"; "create"] action_lower then
    target_dict "writer" "Writer"
  else if contains "write" input_str || contains "document" input_str then
    target_dict "writer" "Writer"
  else target_dict "researcher" "Researcher".

Definition newline : string := str1 (chr 10).

(** The prompt is built before the [try]: an exception here leaves
    [_execute_agent]. *)
Definition build_prompt (action : string) (input_data : json) : result json :=
  if String.eqb action "research" then
    dflt ← get input_data "topic" (JStr "");
    get input_data "query" dflt
  else if String.eqb action "write" then
    dflt ← get input_data "content" (JStr "");
    topic ← get input_data "topic" dflt;
    Ok (JStr ("Write about: " +:+ str topic))
  else
    Ok (JStr ("Action: " +:+ action +:+ newline +:+ "Input: " +:+ dumps input_data)).

Definition output_dict (key text : string) (agent_id : json) : json :=
  JObj [(key, JStr text); ("agent", agent_id)].

Definition _execute_agent (run : backend) (agent_id : json) (action : string)
    (input_data : json) : result json :=
  prompt ← build_prompt action input_data;
  let cmd := [JStr "opengoat"; JStr "agent"; JStr "run"; agent_id;
              JStr "--message"; prompt] in
  match run cmd 120 with
  | Completed returncode stdout stderr =>
      if returncode =? 0 then
        let output := strip stdout in
        if negb (String.eqb output "") then Ok (output_dict "result" output agent_id)
        else Ok (output_dict "result" "Task completed" agent_id)
      else Ok (output_dict "error" stderr agent_id)
  | TimeoutExpired => Ok (output_dict "error" "Task timed out" agent_id)
  | Failure msg => Ok (output_dict "error" msg agent_id)
  end.

(** [action.lower()] exists for a string only. *)
Definition as_str (v : json) : result string :=
  match v with
  | JStr s => Ok s
  | _ => Raise AttributeError
  end.

Definition _handle_task (run : backend) (request : json) : result (Z * json) :=
  params ← get request "params" (JObj []);
  task_id ← get request "id" (JStr "unknown");
  sender ← get params "sender" (JStr "unknown");
  action ← get params "action" (JStr "");
  input_data ← get params "input" (JObj []);
  action ← as_str action;
  let target := _determine_target_agent action input_data in
  if negb (truthy target) then
    Ok (400, JObj [("error", JStr "Could not determine target agent")])
  else
    agent_id ← item target "agent_id";
    result ← _execute_agent run agent_id action input_data;
    Ok (200,
        JObj [("jsonrpc", JStr "2.0");
              ("id", task_id);
              ("result", JObj [("taskId", task_id);
                               ("status", JStr "completed");
                               ("output", result)])]).

Definition do_POST (run : backend) (request : json) : result (Z * json) :=
  method ← get request "method" (JStr "");
  if eq_str method "a2a/task" then _handle_task run request
  else Ok (404, JObj [("error", JStr ("Unknown method: " +:+ str method))]).

End Bridge.

(** ** The deployment: clients that reach the directory over HTTP *)

Module Deployment.

Import SDK.

(** [urlopen] returns the body of a 200 and raises [HTTPError] otherwise. *)
Definition serve_directory (r : Directory.response) : http_outcome :=
  let '(status, p) := r in
  if status =? 200 then HttpOk (Directory.payload_json p)
  else HTTPError status (dumps (Directory.payload_json p)).

(** The text before the last [#]: [urllib] keeps the fragment to itself. *)
Fixpoint drop_fragment (s : string) : string :=
  match s with
  | EmptyString => EmptyString
  | String c r =>
      if has_char "#" r then String c (drop_fragment r)
      else if Ascii.eqb c "#" then EmptyString
      else String c r
  end.

(** [http.client] refuses a request target with a control character, a
    space or DEL ([InvalidURL]), and then one that is not ASCII
    ([UnicodeEncodeError]), before anything is sent. *)
Definition refused (selector : string) : option exn :=
  let codes := map N_of_ascii (list_ascii_of_string selector) in
  if existsb (fun n => (n <=? 32)%N || (n =? 127)%N) codes
  then Some (OtherError "InvalidURL")
  else if existsb (fun n => (128 <=? n)%N) codes then Some UnicodeEncodeError
  else None.

(** A GET of [url] when the directory listens at [base], an address
    [http://host:port]. [urllib] strips the whitespace at the end of the
    URL and drops the fragment; what is left after [base] is sent as
    written, unless it is refused, and [do_GET] answers it. A target that
    [do_GET] does not model gets no answer here; nothing else answers. *)
Definition directory_get (base : string) (AGENTS : dict Directory.AgentRecord)
    (url : string) : http_outcome :=
  match strip_prefix base (rstrip_with is_space url) with
  | Some target =>
      let selector := drop_fragment target in
      match refused selector with
      | Some e => HttpFail e
      | None =>
          match Directory.do_GET selector AGENTS with
          | Some r => serve_directory r
          | None => HttpFail (OtherError "not modelled")
          end
      end
  | None => HttpFail (OtherError "connection refused")
  end.

(** The directory at [base] holding [AGENTS]; [peers] answers every POST. *)
Definition directory_network (base : string) (AGENTS : dict Directory.AgentRecord)
    (peers : string → json → http_outcome) : network :=
  {| http_get := directory_get base AGENTS; http_post := peers |}.



End Deployment.

(** ** a2a_cli.py *)

Module CLI.

Import SDK.

(** The handler [cmd_serve] registers. *)
Definition echo_handler : handler :=
  λ action input_data sender,
    Ok (JObj [("received_action", action);
              ("received_input", input_data);
              ("from", sender)]).

(** The server [cmd_serve] builds and runs; [capabilities] is the
    comma-separated argument. *)
Definition cmd_serve (agent_id name capabilities : string) (port : Z) : A2AServer :=
  handle_task (new_server agent_id name (split "," capabilities) port) echo_handler.

(** What a command prints on standard output: a value through
    [json.dumps(_, indent=2)], or a line of text. *)
Inductive printed : Type :=
  | PrintJson (v : json)
  | PrintText (s : string).

(** [cmd_discover]: [directory] is [args.directory]. *)
Definition cmd_discover (net : network) (directory capabilities : string)
    : io printed :=
  let capabilities := split "," capabilities in
  let agent := __init__ "cli-discover" "CLI Discover" [] directory in
  result ← discover net agent capabilities;
  if truthy result then mret (PrintJson result)
  else mret (PrintText "No agents found").

End CLI.

(** ** The specification's wording, for comparison with the code *)

Module Spec.

Import Directory.

(** "shares at least one element": the wanted set meets the record's. *)
Definition intersects (W caps : list string) : Prop := ∃ c, c ∈ W ∧ c ∈ caps.

#[global] Instance intersects_dec W caps : Decision (intersects W caps).
Proof.
  refine (cast_if (decide (Exists (λ c, c ∈ caps) W)));
    unfold intersects; by rewrite <-Exists_exists.
Defined.

(** A valid record: the four required fields are present. *)
Definition valid_request (agent_id nm : string) (caps : list string) (ep : string)
    : RegisterRequest :=
  {| rq_agentId := Some agent_id; rq_name := Some nm;
     rq_capabilities := Some caps; rq_endpoint := Some ep |}.

(** The record a valid request leaves in the registry at time [now]. *)
Definition stored (now : string) (agent_id nm : string) (caps : list string)
    (ep : string) : AgentRecord :=
  {| agentId := agent_id; name := nm; capabilities := caps;
     endpoint := ep; registeredAt := now +:+ "Z" |}.

(** The fields of a record that the caller of [register] chose. *)
Definition given (a : AgentRecord) : string * string * list string * string :=
  (agentId a, name a, capabilities a, endpoint a).

(** The registry after a [register] call. *)
Definition after_register (now : string) (request : RegisterRequest)
    (AGENTS : dict AgentRecord) : dict AgentRecord :=
  (_handle_register now request AGENTS).1.

(** The record of section 8's scenario, registered at midnight. *)
Definition echo_request : RegisterRequest :=
  valid_request "echo-agent" "Echo Agent" ["echo"; "ping"] "http://localhost:9001".

Definition echo_record : AgentRecord :=
  stored "2024-01-01T00:00:00" "echo-agent" "Echo Agent" ["echo"; "ping"]
         "http://localhost:9001".

Definition echo_registry : dict AgentRecord :=
  after_register "2024-01-01T00:00:00" echo_request [].

End Spec.

(** ** The router's rule table and the bridge's results, in the
    specification's wording *)

Module RouterSpec.

Import Bridge.

(** One category: the keywords looked for in the action, the keywords
    looked for in the stringified input, and the target. *)
Record rule : Type := {
  action_keywords : list string;
  input_keywords : list string;
  target : json
}.

(** The categories in priority order: code, data, api, research, write. *)
Definition rules : list rule :=
  [ {| action_keywords := ["code"; "program"; "implement"; "build"; "function"];
       input_keywords := ["code"; "program"];
       target := target_dict "code" "Code Agent" |};
    {| action_keywords := ["data"; "analyze"; "analytics"; "query"; "stats"];
       input_keywords := ["analyze"; "analytics"; "data"];
       target := target_dict "data" "Data Agent" |};
    {| action_keywords := ["api"; "integration"; "webhook"; "connect"];
       input_keywords := [];
       target := target_dict "api" "API Agent" |};
    {| action_keywords := ["research"; "search"; "find"];
       input_keywords := ["research"; "find"];
       target := target_dict "researcher" "Researcher" |};
    {| action_keywords := ["write"; "document"; "draft"; "edit"; "create"];
       input_keywords := ["write"; "document"];
       target := target_dict "writer" "Writer" |} ].

Definition default_target : json := target_dict "researcher" "Researcher".

(** A category matches on its action keywords, else on its input keywords. *)
Definition rule_matches (r : rule) (action_lower input_str : string) : bool :=
  any_in (action_keywords r) action_lower || any_in (input_keywords r) input_str.

(** First match wins; no match gives the default. *)
Fixpoint first_match (rs : list rule) (action_lower input_str : string) : json :=
  match rs with
  | [] => default_target
  | r :: rs =>
      if rule_matches r action_lower input_str then target r
      else first_match rs action_lower input_str
  end.

Definition route (action : string) (input_data : json) : json :=
  first_match rules (lower action) (lower (str input_data)).

(** The text an unsuccessful backend run is reported with: the error
    stream of a non-zero exit, "Task timed out", or the text of any other
    exception; a zero exit is not a failure. *)
Definition failure_message (o : run_outcome) : option string :=
  match o with
  | Completed returncode _ stderr => if returncode =? 0 then None else Some stderr
  | TimeoutExpired => Some "Task timed out"
  | Failure msg => Some msg
  end.

(** The command line [_execute_agent] runs. *)
Definition command (agent_id prompt : json) : list json :=
  [JStr "opengoat"; JStr "agent"; JStr "run"; agent_id; JStr "--message"; prompt].

(** The response [_handle_task] sends for an execution result. *)
Definition task_response (task_id output : json) : json :=
  JObj [("jsonrpc", JStr "2.0");
        ("id", task_id);
        ("result", JObj [("taskId", task_id);
                         ("status", JStr "completed");
                         ("output", output)])].

Definition is_object (v : json) : bool :=
  match v with JObj _ => true | _ => false end.

(** The requests for which a prompt can be built: a JSON object whose
    params is an object (or absent) and whose action is a string (or
    absent), with an input that is an object (or absent) when the action is
    "research" or "write". *)
Definition answerable (request : json) : bool :=
  match request with
  | JObj d =>
      match default (JObj []) (dict_get "params" d) with
      | JObj p =>
          match default (JStr "") (dict_get "action" p) with
          | JStr action =>
              if String.eqb action "research" || String.eqb action "write"
              then is_object (default (JObj []) (dict_get "input" p))
              else true
          | _ => false
          end
      | _ => false
      end
  | _ => false
  end.

(** A backend whose process exits with code 1 and "boom" on its error stream. *)
Definition failing_backend : backend := λ _ _, Completed 1 "" "boom".

Definition summarize_request : json :=
  JObj [("id", JStr "t1"); ("method", JStr "a2a/task");
        ("params", JObj [("action", JStr "summarize this"); ("input", JObj [])])].

End RouterSpec.

(** ** A client, a directory and a peer, for the scenarios *)

Module Scenario.

Import SDK.

Definition requester : A2AAgent :=
  __init__ "requester-demo" "Requester Demo" ["request"; "delegate"]
           "http://localhost:8080".

(** Every agent endpoint accepts what is posted to it and says where. *)
Definition accepting_peers : string → json → http_outcome :=
  λ url _, HttpOk (JObj [("received_at", JStr url)]).

(** An id with none of the characters a URL path gives a meaning to. *)
Definition plain_id (s : string) : bool :=
  negb (has_char "/" s) && negb (has_char "?" s) && negb (has_char "#" s)
  && negb (has_char ";" s).

(** Printable ASCII without the space: what a URL may hold as written. *)
Definition url_safe (s : string) : bool :=
  forallb (fun c => in_range 33 126 (N_of_ascii c)) (list_ascii_of_string s).

(** An id that reaches the directory as it is written. *)
Definition sendable_id (s : string) : bool := plain_id s && url_safe s.

(** The envelope [send_task] posts. *)
Definition envelope (task_id action sender : string) (input_data : json) : json :=
  JObj [("jsonrpc", JStr "2.0");
        ("id", JStr task_id);
        ("method", JStr "a2a/task");
        ("params", JObj [("taskId", JStr task_id);
                         ("action", JStr action);
                         ("sender", JStr sender);
                         ("input", input_data)])].

End Scenario.

(** ** Properties of the dictionary model *)

Section dict_facts.
Context {V : Type}.
Implicit Types (d : dict V) (k : string) (v : V).

Lemma dict_get_set_eq k v d : dict_get k (dict_set k v d) = Some v.
Proof.
  induction d as [|[k' v'] d IH]; simpl.
  - by rewrite String.eqb_refl.
  - destruct (String.eqb k k') eqn:E; simpl.
    + by rewrite String.eqb_refl.
    + by rewrite E.
Qed.

Lemma dict_get_set_ne k k' v d :
  k ≠ k' → dict_get k' (dict_set k v d) = dict_get k' d.
Proof.
  intros Hne. induction d as [|[k0 v0] d IH]; simpl.
  - by apply String.eqb_neq in Hne; rewrite String.eqb_sym, Hne.
  - destruct (String.eqb k k0) eqn:E; simpl.
    + apply String.eqb_eq in E. subst k0.
      assert (String.eqb k' k = false) as -> by (apply String.eqb_neq; congruence).
      done.
    + by rewrite IH.
Qed.

Lemma dict_mem_keys k d : dict_mem k d = true ↔ k ∈ dict_keys d.
Proof.
  unfold dict_mem, dict_keys. induction d as [|[k' v'] d IH]; simpl.
  - split; [done | by intros ?%elem_of_nil].
  - rewrite elem_of_cons. destruct (String.eqb k k') eqn:E.
    + apply String.eqb_eq in E. split; [by left | done].
    + apply String.eqb_neq in E. rewrite IH.
      split; [by right | by intros [?|?]].
Qed.

(** Overwriting a key that is there moves nothing. *)
Lemma dict_keys_set_mem k v d :
  k ∈ dict_keys d → dict_keys (dict_set k v d) = dict_keys d.
Proof.
  unfold dict_keys. induction d as [|[k' v'] d IH]; simpl.
  - by intros ?%elem_of_nil.
  - intros Hin. destruct (String.eqb k k') eqn:E; simpl.
    + apply String.eqb_eq in E. by subst.
    + apply String.eqb_neq in E. f_equal. apply IH.
      by apply elem_of_cons in Hin as [?|?].
Qed.

(** A new key goes to the end. *)
Lemma dict_keys_set_new k v d :
  k ∉ dict_keys d → dict_set k v d = (d ++ [(k, v)])%list.
Proof.
  unfold dict_keys. induction d as [|[k' v'] d IH]; simpl; [done|].
  intros Hnin. apply not_elem_of_cons in Hnin as [Hne Hnin].
  apply String.eqb_neq in Hne. rewrite Hne. f_equal. by apply IH.
Qed.

(** Overwriting replaces the first entry of the key where it stands. *)
Lemma dict_set_split k v d :
  k ∈ dict_keys d →
  ∃ d1 v0 d2, d = d1 ++ (k, v0) :: d2 ∧ (k ∉ dict_keys d1) ∧
              dict_set k v d = d1 ++ (k, v) :: d2.
Proof.
  unfold dict_keys. induction d as [|[k' v'] d IH]; simpl.
  - by intros ?%elem_of_nil.
  - intros Hin. destruct (String.eqb k k') eqn:E.
    + apply String.eqb_eq in E. subst k'.
      exists [], v', d. split_and!; [done | apply not_elem_of_nil | done].
    + apply String.eqb_neq in E. apply elem_of_cons in Hin as [?|Hin]; [done|].
      destruct (IH Hin) as (d1 & v0 & d2 & -> & Hnin & ->).
      exists ((k', v') :: d1), v0, d2. split_and!; [done | | done].
      simpl. apply not_elem_of_cons. done.
Qed.

Lemma dict_set_set k v v' d : dict_set k v' (dict_set k v d) = dict_set k v' d.
Proof.
  induction d as [|[k0 v0] d IH]; simpl.
  - by rewrite String.eqb_refl.
  - destruct (String.eqb k k0) eqn:E; simpl.
    + by rewrite String.eqb_refl.
    + by rewrite E, IH.
Qed.

Lemma dict_set_length_mem k v d :
  k ∈ dict_keys d → length (dict_set k v d) = length d.
Proof.
  intros Hin. rewrite <-(length_map fst (dict_set k v d)), <-(length_map fst d).
  f_equal. by apply dict_keys_set_mem.
Qed.

Lemma dict_keys_set k v d :
  dict_keys (dict_set k v d)
  = if dict_mem k d then dict_keys d else (dict_keys d ++ [k])%list.
Proof.
  destruct (dict_mem k d) eqn:E.
  - apply dict_keys_set_mem. by apply dict_mem_keys.
  - assert (k ∉ dict_keys d) as Hnin.
    { intros H%dict_mem_keys. congruence. }
    rewrite (dict_keys_set_new _ v _ Hnin). unfold dict_keys.
    by rewrite map_app.
Qed.

Lemma dict_set_NoDup k v d : NoDup (dict_keys d) → NoDup (dict_keys (dict_set k v d)).
Proof.
  intros Hnd. rewrite dict_keys_set. destruct (dict_mem k d) eqn:E; [done|].
  apply NoDup_app. split_and!; [done | | apply NoDup_singleton].
  intros x Hx ->%list_elem_of_singleton.
  apply dict_mem_keys in Hx. congruence.
Qed.

(** With unique keys, only the new value is filed under the key. *)
Lemma dict_set_elem k v d kv :
  NoDup (dict_keys d) →
  kv ∈ dict_set k v d → kv = (k, v) ∨ (kv ∈ d ∧ kv.1 ≠ k).
Proof.
  unfold dict_keys. induction d as [|[k0 v0] d IH]; simpl.
  - intros _ ->%list_elem_of_singleton. by left.
  - intros [Hk0 Hnd]%NoDup_cons. destruct (String.eqb k k0) eqn:E.
    + apply String.eqb_eq in E. subst k0.
      intros [->|Hin]%elem_of_cons; [by left|].
      right. split; [by right|].
      intros <-. apply Hk0. by apply (list_elem_of_fmap_2 fst) in Hin.
    + apply String.eqb_neq in E.
      intros [->|Hin]%elem_of_cons.
      * right. split; [by left | simpl; congruence].
      * destruct (IH Hnd Hin) as [->|[? ?]]; [by left|].
        right. split; [by right | done].
Qed.

Lemma dict_set_elem_new k v d : (k, v) ∈ dict_set k v d.
Proof.
  induction d as [|[k0 v0] d IH]; simpl.
  - by left.
  - destruct (String.eqb k k0); [by left | by right].
Qed.

Lemma dict_set_elem_old k v d kv : kv ∈ d → kv.1 ≠ k → kv ∈ dict_set k v d.
Proof.
  intros Hin Hne. induction d as [|[k0 v0] d IH]; simpl.
  - by apply elem_of_nil in Hin.
  - destruct (String.eqb k k0) eqn:E.
    + apply String.eqb_eq in E. subst k0.
      apply elem_of_cons in Hin as [->|Hin]; [done | by right].
    + apply elem_of_cons in Hin as [->|Hin]; [by left | right; by apply IH].
Qed.

Lemma dict_get_app_new k v d1 d2 :
  k ∉ dict_keys d1 → dict_get k (d1 ++ (k, v) :: d2) = Some v.
Proof.
  unfold dict_keys. induction d1 as [|[k0 v0] d1 IH]; simpl.
  - by rewrite String.eqb_refl.
  - intros [Hne Hnin]%not_elem_of_cons. apply String.eqb_neq in Hne.
    rewrite Hne. by apply IH.
Qed.

(** Where [dict_set] writes does not depend on the value written. *)
Lemma dict_set_shape k d :
  ∃ d1 d2, ∀ v, dict_set k v d = d1 ++ (k, v) :: d2.
Proof.
  induction d as [|[k0 v0] d (d1 & d2 & IH)]; simpl.
  - by exists [], [].
  - destruct (String.eqb k k0).
    + by exists [], d.
    + exists ((k0, v0) :: d1), d2. intros v. by rewrite IH.
Qed.

Lemma dict_get_keys k v d : dict_get k d = Some v → k ∈ dict_keys d.
Proof.
  intros H. apply dict_mem_keys. unfold dict_mem. by rewrite H.
Qed.

End dict_facts.

(** ** The string primitives on sample texts *)

Example lower_sample : lower "Research AI Trends" = "research ai trends".
Proof. reflexivity. Qed.

Example contains_sample :
  contains "api" "research ai trends" = false ∧ contains "search" "research ai" = true.
Proof. split; reflexivity. Qed.

Example split_sample :
  split "/" "/a2a/agents/x/echo-agent" = [""; "a2a"; "agents"; "x"; "echo-agent"].
Proof. reflexivity. Qed.

Example strip_sample : strip (" done" +:+ str1 (chr 10)) = "done".
Proof. reflexivity. Qed.

Example rstrip_slash_sample : rstrip_slash "http://localhost:8080//" = "http://localhost:8080".
Proof. reflexivity. Qed.

Example repr_sample :
  repr (JObj [("topic", JStr "code"); ("n", JNum (-3)); ("l", JArr [JBool true; JNull])])
  = "{'topic': 'code', 'n': -3, 'l': [True, None]}".
Proof. vm_compute. reflexivity. Qed.

Example repr_quote_sample : repr (JStr "it's") = str1 (chr 34) +:+ "it's" +:+ str1 (chr 34).
Proof. vm_compute. reflexivity. Qed.

Example dumps_sample :
  dumps (JObj [("a", JArr [JNum 1; JNull])]) = "{" +:+ dumps_str "a" +:+ ": [1, null]}".
Proof. vm_compute. reflexivity. Qed.

Example urlparse_path_sample :
  Directory.urlparse_path "/a2a/agents/echo-agent;v=1?x=1#top"
  = Some "/a2a/agents/echo-agent".
Proof. reflexivity. Qed.

(** ** The registry and discovery *)

Section directory_facts.
Import Directory Spec.
Implicit Types (AGENTS : dict AgentRecord) (W : list string).

Lemma matches_wanted_intersects W a :
  matches_wanted W a = true ↔ intersects W (capabilities a).
Proof.
  unfold matches_wanted, intersects. rewrite existsb_exists.
  split.
  - intros (c & Hc & Hin). exists c. split; [by apply list_elem_of_In|].
    apply bool_decide_eq_true in Hin. by apply elem_of_list_to_set in Hin.
  - intros (c & Hc & Hin). exists c. split; [by apply list_elem_of_In|].
    apply bool_decide_eq_true. by apply elem_of_list_to_set.
Qed.

(** The loop of [_handle_discover] is a filter of the registry's values. *)
Lemma discover_loop_filter W AGENTS :
  discover_loop W AGENTS
  = filter (λ a, intersects W (capabilities a)) (dict_values AGENTS).
Proof.
  unfold discover_loop.
  enough (∀ acc,
    fold_left
      (λ matches item,
         if matches_wanted W item.2 then matches ++ [item.2] else matches)
      AGENTS acc
    = acc ++ filter (λ a, intersects W (capabilities a)) (dict_values AGENTS))
    as H by apply (H []).
  induction AGENTS as [|[k a] d IH]; intros acc; simpl.
  - by rewrite app_nil_r.
  - rewrite IH. destruct (matches_wanted W a) eqn:E.
    + rewrite filter_cons_True by by apply matches_wanted_intersects.
      by rewrite <-app_assoc.
    + rewrite filter_cons_False; [done|].
      intros H%matches_wanted_intersects. congruence.
Qed.

Lemma registry_inv_nil : registry_inv [].
Proof. split; [apply NoDup_nil_2 | apply Forall_nil_2]. Qed.

Lemma registry_inv_register now request AGENTS :
  registry_inv AGENTS → registry_inv (after_register now request AGENTS).
Proof.
  intros [Hnd Hid]. unfold after_register, _handle_register.
  destruct (rq_agentId request) as [agent_id|]; [|done].
  destruct (rq_name request) as [nm|]; [|done].
  destruct (rq_capabilities request) as [caps|]; [|done].
  destruct (rq_endpoint request) as [ep|]; [|done].
  simpl. split; [by apply dict_set_NoDup|].
  apply Forall_forall. intros kv Hin.
  apply dict_set_elem in Hin as [->|[Hin _]]; [done| |done].
  by apply (proj1 (Forall_forall _ _) Hid).
Qed.

(** C1. [discover(W)] answers 400 when [W] is empty; otherwise it answers
    200 with exactly the registered records whose capability set shares an
    element with [W], in the order the registry lists them, which is the
    empty list when no record matches. *)
Theorem discover_returns_intersecting W AGENTS :
  (W = [] →
     _handle_discover {| dq_capabilities := Some W |} AGENTS
     = (400, Error "No capabilities specified")) ∧
  (W ≠ [] →
     let found := filter (λ a, intersects W (capabilities a)) (dict_values AGENTS) in
     _handle_discover {| dq_capabilities := Some W |} AGENTS = (200, Agents found) ∧
     (∀ a, a ∈ found ↔ a ∈ dict_values AGENTS ∧ intersects W (capabilities a)) ∧
     found `sublist_of` dict_values AGENTS ∧
     ((∀ a, a ∈ dict_values AGENTS → ¬ intersects W (capabilities a)) → found = [])).
Proof.
  split.
  - by intros ->.
  - intros HW. simpl. split_and!.
    + unfold _handle_discover. simpl. rewrite discover_loop_filter.
      by destruct W.
    + intros a. rewrite list_elem_of_filter. tauto.
    + apply sublist_filter.
    + intros Hnone.
      destruct (filter _ (dict_values AGENTS)) as [|a l] eqn:E; [done|].
      assert (a ∈ a :: l) as Ha by left. rewrite <-E in Ha.
      apply list_elem_of_filter in Ha as [HP Hin]. by destruct (Hnone a Hin).
Qed.

Lemma discover_returns_intersecting_witness :
  _handle_discover {| dq_capabilities := Some ["ping"] |} echo_registry
  = (200, Agents [echo_record]) ∧
  _handle_discover {| dq_capabilities := Some ["code"] |} echo_registry
  = (200, Agents []) ∧
  _handle_discover {| dq_capabilities := Some [] |} echo_registry
  = (400, Error "No capabilities specified").
Proof.
  split_and!.
  - destruct (discover_returns_intersecting ["ping"] echo_registry) as [_ H].
    destruct (H ltac:(done)) as [-> _]. vm_compute. reflexivity.
  - destruct (discover_returns_intersecting ["code"] echo_registry) as [_ H].
    destruct (H ltac:(done)) as [-> _]. vm_compute. reflexivity.
  - by apply (discover_returns_intersecting [] echo_registry).
Defined.

Lemma after_register_valid now agent_id nm caps ep AGENTS :
  after_register now (valid_request agent_id nm caps ep) AGENTS
  = dict_set agent_id (stored now agent_id nm caps ep) AGENTS.
Proof. reflexivity. Qed.

(** C5. After two valid records with distinct ids are registered, [list()]
    holds both. Registering the first id again with new fields puts the
    new record where the old one stood: the listing keeps its length and
    its order of ids, no other listed record carries that id, and [get]
    and [discover] show the new record only. *)
Theorem reregister_overwrites_in_place
    AGENTS t1 t2 t3 id1 n1 c1 e1 id2 n2 c2 e2 n1' c1' e1' :
  registry_inv AGENTS →
  id1 ≠ id2 →
  let s2 := after_register t2 (valid_request id2 n2 c2 e2)
              (after_register t1 (valid_request id1 n1 c1 e1) AGENTS) in
  let s3 := after_register t3 (valid_request id1 n1' c1' e1') s2 in
  let old := stored t1 id1 n1 c1 e1 in
  let new := stored t3 id1 n1' c1' e1' in
  ∃ before after,
    _handle_list_agents s2 = (200, Agents (before ++ old :: after)) ∧
    stored t2 id2 n2 c2 e2 ∈ before ++ old :: after ∧
    _handle_list_agents s3 = (200, Agents (before ++ new :: after)) ∧
    length (before ++ new :: after) = length (before ++ old :: after) ∧
    map agentId (before ++ new :: after) = map agentId (before ++ old :: after) ∧
    (∀ a, a ∈ before ++ after → agentId a ≠ id1) ∧
    _handle_get_agent id1 s3 = (200, Agent new) ∧
    (∀ W found,
       _handle_discover {| dq_capabilities := Some W |} s3 = (200, Agents found) →
       ∀ a, a ∈ found → agentId a = id1 → a = new).
Proof.
  intros Hinv Hne s2 s3 old new.
  assert (registry_inv s2) as Hinv2 by by do 2 apply registry_inv_register.
  subst s2 s3 old new. rewrite !after_register_valid in *.
  set (old := stored t1 id1 n1 c1 e1) in *.
  set (new := stored t3 id1 n1' c1' e1') in *.
  set (rec2 := stored t2 id2 n2 c2 e2) in *.
  set (s2 := dict_set id2 rec2 (dict_set id1 old AGENTS)) in *.
  destruct Hinv2 as [Hnd Hid].
  assert (dict_get id1 s2 = Some old) as Hget.
  { unfold s2. rewrite dict_get_set_ne by done. apply dict_get_set_eq. }
  destruct (dict_set_split id1 new s2 (dict_get_keys _ _ _ Hget))
    as (d1 & v0 & d2 & Hs2 & Hnin & Hs3).
  assert (v0 = old) as ->.
  { rewrite Hs2, dict_get_app_new in Hget by done. congruence. }
  assert (∀ a, a ∈ dict_values d1 ++ dict_values d2 → agentId a ≠ id1) as Hothers.
  { rewrite Hs2 in Hnd, Hid. unfold dict_keys in Hnd.
    rewrite map_app in Hnd. simpl in Hnd.
    apply NoDup_app in Hnd as (_ & Hdisj & [Hnin2 _]%NoDup_cons).
    apply Forall_app in Hid as [Hid1 [_ Hid2]%Forall_cons].
    intros a [Ha|Ha]%elem_of_app;
      apply list_elem_of_fmap in Ha as (kv & -> & Hkv).
    - rewrite (proj1 (Forall_forall _ _) Hid1 kv Hkv). intros E.
      apply Hnin. rewrite <-E. by apply (list_elem_of_fmap_2 fst).
    - rewrite (proj1 (Forall_forall _ _) Hid2 kv Hkv). intros E.
      apply Hnin2. rewrite <-E. by apply (list_elem_of_fmap_2 fst). }
  exists (dict_values d1), (dict_values d2).
  assert (dict_values s2 = dict_values d1 ++ old :: dict_values d2) as Hv2.
  { rewrite Hs2. unfold dict_values. by rewrite map_app. }
  assert (dict_values (dict_set id1 new s2)
          = dict_values d1 ++ new :: dict_values d2) as Hv3.
  { rewrite Hs3. unfold dict_values. by rewrite map_app. }
  split_and!.
  - unfold _handle_list_agents. by rewrite Hv2.
  - rewrite <-Hv2. apply (list_elem_of_fmap_2 snd _ (id2, rec2)).
    apply dict_set_elem_new.
  - unfold _handle_list_agents. by rewrite Hv3.
  - by rewrite !length_app.
  - by rewrite !map_app.
  - exact Hothers.
  - unfold _handle_get_agent. by rewrite dict_get_set_eq.
  - intros W found Hfound a Ha Hida.
    destruct W as [|w W]; [done|].
    unfold _handle_discover in Hfound. simpl in Hfound.
    injection Hfound as <-. rewrite discover_loop_filter in Ha.
    apply list_elem_of_filter in Ha as [_ Ha]. rewrite Hv3 in Ha.
    apply elem_of_app in Ha as [Ha|[->|Ha]%elem_of_cons]; [|done|].
    + destruct (Hothers a); [apply elem_of_app; by left | done].
    + destruct (Hothers a); [apply elem_of_app; by right | done].
Qed.

Lemma reregister_overwrites_in_place_witness :
  registry_inv [] ∧ "echo-agent" ≠ "code-agent" ∧
  ∃ before after,
    _handle_list_agents
      (after_register "t3" (valid_request "echo-agent" "Echo v2" ["ping"] "http://h:2")
         (after_register "t2" (valid_request "code-agent" "Coder" ["code"] "http://h:3")
            (after_register "t1" (valid_request "echo-agent" "Echo" ["echo"] "http://h:1")
               [])))
    = (200, Agents (before ++ stored "t3" "echo-agent" "Echo v2" ["ping"] "http://h:2"
                           :: after)).
Proof.
  assert (registry_inv []) as Hinv by (split; constructor).
  assert ("echo-agent" ≠ "code-agent") as Hne by discriminate.
  split_and!; [exact Hinv | exact Hne |].
  destruct (reregister_overwrites_in_place [] "t1" "t2" "t3"
              "echo-agent" "Echo" ["echo"] "http://h:1"
              "code-agent" "Coder" ["code"] "http://h:3"
              "Echo v2" ["ping"] "http://h:2" Hinv Hne)
    as (before & after & _ & _ & H & _).
  exists before, after. exact H.
Defined.

(** C8 as stated fails: the second call stamps the record with its own
    reading of the clock, so two calls a second apart do not leave the
    registry as the first call left it. *)
Lemma register_twice_restamps :
  ¬ (after_register "2024-01-01T00:00:01" echo_request
       (after_register "2024-01-01T00:00:00" echo_request [])
     = after_register "2024-01-01T00:00:00" echo_request []).
Proof. vm_compute. discriminate. Qed.

Lemma filter_given W (l1 l2 : list AgentRecord) :
  map given l1 = map given l2 →
  map given (filter (λ a, intersects W (capabilities a)) l1)
  = map given (filter (λ a, intersects W (capabilities a)) l2).
Proof.
  revert l2. induction l1 as [|a l1 IH]; intros [|b l2] Hmap; try done.
  change (given a :: map given l1 = given b :: map given l2) in Hmap.
  assert (given a = given b) as Hab by congruence.
  assert (map given l1 = map given l2) as Hrest by congruence.
  assert (capabilities a = capabilities b) as Hcaps
    by (unfold given in Hab; congruence).
  destruct (decide (intersects W (capabilities a))) as [Ha|Ha].
  - rewrite (filter_cons_True _ a), (filter_cons_True _ b) by congruence.
    change (given a :: map given (filter (λ a, intersects W (capabilities a)) l1)
            = given b :: map given (filter (λ a, intersects W (capabilities a)) l2)).
    rewrite Hab. f_equal. by apply IH.
  - rewrite (filter_cons_False _ a), (filter_cons_False _ b) by congruence.
    by apply IH.
Qed.

Lemma dict_get_given id k (v1 v2 : AgentRecord) d1 d2 :
  given v1 = given v2 →
  given <$> dict_get id (d1 ++ (k, v1) :: d2)
  = given <$> dict_get id (d1 ++ (k, v2) :: d2).
Proof.
  intros Hgiven. induction d1 as [|[k0 v0] d1 IH]; simpl.
  - destruct (String.eqb id k); [simpl; f_equal; exact Hgiven | done].
  - by destruct (String.eqb id k0).
Qed.

(** C8, amended. Two [register] calls in a row with the same request
    leave the registry as one call made at the time of the second: next to
    the registry after one call it has the same ids in the same order and
    in every record the same agentId, name, capabilities and endpoint, so
    [list], [get] and [discover] show the same agents; the two registries
    are equal when the clock reads the same at both calls. *)
Theorem register_idempotent_up_to_timestamp t1 t2 request AGENTS W id :
  let once := after_register t1 request AGENTS in
  let twice := after_register t2 request once in
  twice = after_register t2 request AGENTS ∧
  after_register t1 request once = once ∧
  dict_keys twice = dict_keys once ∧
  map given (dict_values twice) = map given (dict_values once) ∧
  given <$> dict_get id twice = given <$> dict_get id once ∧
  map given (discover_loop W twice) = map given (discover_loop W once).
Proof.
  intros once twice. subst once twice.
  unfold after_register, _handle_register.
  destruct (rq_agentId request) as [agent_id|] eqn:E1; [|by rewrite ?E1].
  destruct (rq_name request) as [nm|] eqn:E2; [|by rewrite ?E1, ?E2].
  destruct (rq_capabilities request) as [caps|] eqn:E3; [|by rewrite ?E1, ?E2, ?E3].
  destruct (rq_endpoint request) as [ep|] eqn:E4; [|by rewrite ?E1, ?E2, ?E3, ?E4].
  simpl. rewrite !dict_set_set.
  destruct (dict_set_shape agent_id AGENTS) as (d1 & d2 & Hshape).
  rewrite !Hshape.
  assert (map given (dict_values (d1 ++ (agent_id,
            {| agentId := agent_id; name := nm; capabilities := caps;
               endpoint := ep; registeredAt := t2 +:+ "Z" |}) :: d2))
          = map given (dict_values (d1 ++ (agent_id,
            {| agentId := agent_id; name := nm; capabilities := caps;
               endpoint := ep; registeredAt := t1 +:+ "Z" |}) :: d2))) as Hgiven.
  { unfold dict_values. by rewrite !map_app. }
  split_and!.
  - done.
  - done.
  - unfold dict_keys. by rewrite !map_app.
  - done.
  - by apply dict_get_given.
  - rewrite !discover_loop_filter. by apply filter_given.
Qed.

End directory_facts.

(** ** The agent client and server *)

Section sdk_facts.
Import SDK.

(** C10. [register(endpoint)] stores the endpoint in the agent before it
    posts to the directory: whatever the call does next, the agent's
    endpoint is the one attempted, also when the directory answers with
    an HTTP error and the call raises the registration error. *)
Theorem register_sets_endpoint_first net self ep :
  endpoint (register net self ep).1 = Some ep ∧
  (∀ code text,
     http_post net (directory_url self +:+ "/a2a/register") (registration self ep)
     = HTTPError code text →
     ∃ msg, (register net self ep).2
            = ([EvPost (directory_url self +:+ "/a2a/register") (registration self ep)],
               Raise (RuntimeError msg)) ∧
            endpoint (register net self ep).1 = Some ep).
Proof.
  split; [done|].
  intros code text Hpost. eexists. split; [|done].
  unfold register. simpl. unfold mbind, io_mbind, io_bind, _post.
  simpl. change (registration (set_endpoint self ep) ep) with (registration self ep).
  rewrite Hpost. simpl. reflexivity.
Qed.

Lemma register_sets_endpoint_first_witness :
  let net := {| http_get := λ _, HttpFail (OtherError "unused");
                http_post := λ _ _, HTTPError 400 "Missing fields" |} in
  let self := __init__ "a" "A" ["echo"] "http://localhost:8080/" in
  ∃ msg, (register net self "http://localhost:9001").2.2 = Raise (RuntimeError msg) ∧
         endpoint (register net self "http://localhost:9001").1
         = Some "http://localhost:9001".
Proof.
  intros net self.
  destruct (register_sets_endpoint_first net self "http://localhost:9001") as [_ H].
  destruct (H 400 "Missing fields" eq_refl) as (msg & Hout & Hep).
  exists msg. rewrite Hout. split; [reflexivity | exact Hep].
Defined.

(** C2. A server on which handler [h] is registered, given an envelope
    with method "a2a/task" and parameters action [a], input [i] and sender
    [s], calls [h] once, with [(a, i, s)], and answers 200 with a result
    whose status is "completed" and whose output is what [h] returned. *)
Theorem server_round_trip (srv : A2AServer) (h : handler) d p a i s out :
  dict_get "method" d = Some (JStr "a2a/task") →
  dict_get "params" d = Some (JObj p) →
  dict_get "action" p = Some a →
  dict_get "input" p = Some i →
  dict_get "sender" p = Some s →
  h a i s = Ok out →
  serve (handle_task srv h) (JObj d)
  = ([{| call_action := a; call_input := i; call_sender := s |}],
     Ok (200, JObj [("jsonrpc", JStr "2.0");
                    ("id", default JNull (dict_get "id" d));
                    ("result", JObj [("taskId", default JNull (dict_get "taskId" p));
                                     ("status", JStr "completed");
                                     ("output", out)])])).
Proof.
  intros Hm Hp Ha Hi Hs Hh. unfold serve, do_POST. cbn [get].
  rewrite Hm. simpl. rewrite Hp. simpl. rewrite Ha, Hi, Hs. simpl.
  rewrite Hh. reflexivity.
Qed.

Lemma server_round_trip_witness :
  serve (handle_task (new_server "echo-agent" "Echo Agent" ["echo"] 9001)
                     (λ a i s, Ok (JObj [("echoed", i)])))
    (JObj [("jsonrpc", JStr "2.0"); ("id", JStr "t1"); ("method", JStr "a2a/task");
           ("params", JObj [("taskId", JStr "t1"); ("action", JStr "echo");
                            ("sender", JStr "requester-demo");
                            ("input", JObj [("message", JStr "hi")])])])
  = ([{| call_action := JStr "echo";
         call_input := JObj [("message", JStr "hi")];
         call_sender := JStr "requester-demo" |}],
     Ok (200, JObj [("jsonrpc", JStr "2.0");
                    ("id", JStr "t1");
                    ("result", JObj [("taskId", JStr "t1");
                                     ("status", JStr "completed");
                                     ("output",
                                      JObj [("echoed", JObj [("message", JStr "hi")])])])])).
Proof.
  apply (server_round_trip (new_server "echo-agent" "Echo Agent" ["echo"] 9001)
           (λ a i s, Ok (JObj [("echoed", i)]))
           [("jsonrpc", JStr "2.0"); ("id", JStr "t1"); ("method", JStr "a2a/task");
            ("params", JObj [("taskId", JStr "t1"); ("action", JStr "echo");
                             ("sender", JStr "requester-demo");
                             ("input", JObj [("message", JStr "hi")])])]
           [("taskId", JStr "t1"); ("action", JStr "echo");
            ("sender", JStr "requester-demo");
            ("input", JObj [("message", JStr "hi")])]);
    reflexivity.
Defined.

(** C7 as stated fails: an envelope with the method "a2a/task" whose
    [params] is [null], sent to a server without a handler, gets no reply
    at all: [params.get] raises before the handler is looked at, so the
    answer is not the error -32001. *)
Lemma server_no_handler_null_params_raises :
  do_POST None (JObj [("id", JNum 7); ("method", JStr "a2a/task"); ("params", JNull)])
  = ([], Raise AttributeError) ∧
  ¬ (∃ body,
       do_POST None (JObj [("id", JNum 7); ("method", JStr "a2a/task");
                           ("params", JNull)])
       = ([], Ok (200, body))).
Proof. split; [reflexivity | by intros [body H]]. Qed.

(** C7, amended. On an envelope that is a JSON object: a method other than
    "a2a/task" is answered with error code -32601; the method "a2a/task"
    with no handler registered is answered with error code -32001 when
    [params] is an object or absent; a response that carries an error is
    one of these two; and the method "a2a/task" with a [params] that is
    not an object is not answered, handler or not: AttributeError leaves
    [do_POST]. *)
Theorem server_error_codes (task_handler : option handler) d :
  let task_id := default JNull (dict_get "id" d) in
  let method := default (JStr "") (dict_get "method" d) in
  let not_found :=
    JObj [("jsonrpc", JStr "2.0"); ("id", task_id);
          ("error", JObj [("code", JNum (-32601));
                          ("message", JStr "Method not found")])] in
  let no_handler :=
    JObj [("jsonrpc", JStr "2.0"); ("id", task_id);
          ("error", JObj [("code", JNum (-32001));
                          ("message", JStr "No handler registered")])] in
  (eq_str method "a2a/task" = false →
     do_POST task_handler (JObj d) = ([], Ok (200, not_found))) ∧
  (eq_str method "a2a/task" = true →
     task_handler = None →
     (∃ p, default (JObj []) (dict_get "params" d) = JObj p) →
     do_POST task_handler (JObj d) = ([], Ok (200, no_handler))) ∧
  (∀ calls status body,
     do_POST task_handler (JObj d) = (calls, Ok (status, body)) →
     has "error" body = Ok true →
     status = 200 ∧
     ((eq_str method "a2a/task" = false ∧ body = not_found) ∨
      (eq_str method "a2a/task" = true ∧ task_handler = None ∧ body = no_handler))) ∧
  (eq_str method "a2a/task" = true →
     (∀ p, default (JObj []) (dict_get "params" d) ≠ JObj p) →
     do_POST task_handler (JObj d) = ([], Raise AttributeError)).
Proof.
  intros task_id method not_found no_handler.
  subst task_id method not_found no_handler.
  unfold do_POST. cbn [get].
  destruct (eq_str (default (JStr "") (dict_get "method" d)) "a2a/task") eqn:Em.
  - split_and!; [done | | |].
    2: { intros calls status body Hrun Herr.
         destruct (default (JObj []) (dict_get "params" d)) as [| | | | |p];
           try discriminate.
         cbn [get] in Hrun. destruct task_handler as [h|].
         - destruct (h _ _ _) as [out|e]; [|discriminate].
           injection Hrun as <- <- <-. discriminate.
         - injection Hrun as <- <- <-. split; [done|]. right. done. }
    2: { intros _ Hnot.
         destruct (default (JObj []) (dict_get "params" d)) as [| | | | |p];
           try reflexivity.
         by destruct (Hnot p). }
    + intros _ -> [p ->]. reflexivity.
  - split_and!; [done | done | | done].
    intros calls status body Hrun Herr. injection Hrun as <- <- <-.
    split; [done|]. by left.
Qed.

Lemma server_error_codes_witness :
  do_POST None (JObj [("id", JNum 7); ("method", JStr "a2a/other")])
  = ([], Ok (200, JObj [("jsonrpc", JStr "2.0"); ("id", JNum 7);
                        ("error", JObj [("code", JNum (-32601));
                                        ("message", JStr "Method not found")])])) ∧
  do_POST None (JObj [("id", JNum 7); ("method", JStr "a2a/task");
                      ("params", JObj [("action", JStr "echo")])])
  = ([], Ok (200, JObj [("jsonrpc", JStr "2.0"); ("id", JNum 7);
                        ("error", JObj [("code", JNum (-32001));
                                        ("message", JStr "No handler registered")])])) ∧
  (∀ calls status body,
     do_POST None (JObj [("id", JNum 7); ("method", JStr "a2a/task")])
     = (calls, Ok (status, body)) →
     item body "error"
     = Ok (JObj [("code", JNum (-32001)); ("message", JStr "No handler registered")])) ∧
  do_POST None (JObj [("id", JNum 7); ("method", JStr "a2a/task");
                      ("params", JArr [JStr "echo"])])
  = ([], Raise AttributeError).
Proof.
  pose proof (server_error_codes None
                [("id", JNum 7); ("method", JStr "a2a/other")]) as H.
  pose proof (server_error_codes None
                [("id", JNum 7); ("method", JStr "a2a/task");
                 ("params", JObj [("action", JStr "echo")])]) as H'.
  pose proof (server_error_codes None
                [("id", JNum 7); ("method", JStr "a2a/task")]) as H''.
  pose proof (server_error_codes None
                [("id", JNum 7); ("method", JStr "a2a/task");
                 ("params", JArr [JStr "echo"])]) as Hrefused.
  cbv zeta in H, H', H'', Hrefused.
  destruct H as (Hunknown & _). destruct H' as (_ & Hnone & _).
  destruct H'' as (_ & Hnone' & _). destruct Hrefused as (_ & _ & _ & Hraise).
  split_and!; [| | |by apply Hraise].
  - apply Hunknown. reflexivity.
  - apply Hnone; [reflexivity | reflexivity | by eexists].
  - intros calls status body Hrun.
    assert (do_POST None (JObj [("id", JNum 7); ("method", JStr "a2a/task")])
            = ([], Ok (200, JObj [("jsonrpc", JStr "2.0"); ("id", JNum 7);
                                  ("error",
                                   JObj [("code", JNum (-32001));
                                         ("message", JStr "No handler registered")])])))
      as Hreply by (apply Hnone'; [reflexivity | reflexivity | by eexists]).
    rewrite Hreply in Hrun. by injection Hrun as <- <- <-.
Defined.

(** Outside that shape the handler check is not reached: [params] that
    is not an object makes [do_POST] raise before it. *)
Lemma server_params_not_object :
  do_POST None (JObj [("method", JStr "a2a/task"); ("params", JStr "x")])
  = ([], Raise AttributeError).
Proof. reflexivity. Qed.

(** A handler that raises leaves [do_POST] with its exception: no
    response is written. *)
Lemma server_handler_raises (h : handler) d p e :
  dict_get "method" d = Some (JStr "a2a/task") →
  dict_get "params" d = Some (JObj p) →
  h (default JNull (dict_get "action" p)) (default (JObj []) (dict_get "input" p))
    (default JNull (dict_get "sender" p)) = Raise e →
  (do_POST (Some h) (JObj d)).2 = Raise e.
Proof.
  intros Hm Hp Hh. unfold do_POST, get. simpl. rewrite Hm, Hp. simpl.
  by rewrite Hh.
Qed.

End sdk_facts.

(** ** Resolving a target through the directory *)

Section lookup_facts.
Import SDK Deployment Scenario.

Lemma strip_prefix_app base rest : strip_prefix base (base +:+ rest) = Some rest.
Proof.
  induction base as [|c base IH]; simpl.
  - by destruct rest.
  - by rewrite Ascii.eqb_refl.
Qed.

Lemma has_char_cons c a s :
  has_char c (String a s) = Ascii.eqb c a || has_char c s.
Proof. reflexivity. Qed.

Lemma cut_at_absent c s : has_char c s = false → Directory.cut_at c s = s.
Proof.
  induction s as [|a s IH]; [done|].
  rewrite has_char_cons. intros [Hc Hs]%orb_false_elim. simpl.
  rewrite Ascii.eqb_sym, Hc. by rewrite IH.
Qed.

Lemma cut_params_absent s : has_char ";" s = false → Directory.cut_params s = s.
Proof.
  induction s as [|a s IH]; [done|].
  intros H. cbn [Directory.cut_params]. destruct (has_char "/" s).
  - rewrite has_char_cons in H. apply orb_false_elim in H as [_ H].
    by rewrite IH.
  - by rewrite (cut_at_absent _ _ H).
Qed.

Lemma split_cons sep c r :
  split sep (String c r)
  = if Ascii.eqb c sep then "" :: split sep r
    else match split sep r with
         | [] => [String c ""]
         | w :: ws => String c w :: ws
         end.
Proof. reflexivity. Qed.

Lemma split_absent sep s : has_char sep s = false → split sep s = [s].
Proof.
  induction s as [|a s IH]; [done|].
  rewrite has_char_cons. intros [Hc Hs]%orb_false_elim.
  rewrite split_cons, Ascii.eqb_sym, Hc. by rewrite IH.
Qed.

(** The text before the first separator is the first field. *)
Lemma split_first sep p r :
  has_char sep p = false → split sep (p +:+ String sep r) = p :: split sep r.
Proof.
  induction p as [|a p IH].
  - intros _. change ("" +:+ String sep r) with (String sep r).
    by rewrite split_cons, Ascii.eqb_refl.
  - rewrite has_char_cons. intros [Hc Hp]%orb_false_elim.
    change (String a p +:+ String sep r) with (String a (p +:+ String sep r)).
    by rewrite split_cons, Ascii.eqb_sym, Hc, IH.
Qed.

Lemma has_char_app c s1 s2 :
  has_char c (s1 +:+ s2) = has_char c s1 || has_char c s2.
Proof.
  induction s1 as [|a s1 IH]; [done|].
  change (String a s1 +:+ s2) with (String a (s1 +:+ s2)).
  by rewrite !has_char_cons, IH, orb_assoc.
Qed.

Lemma has_char_agents_path c target :
  has_char c "/a2a/agents/" = false →
  has_char c ("/a2a/agents/" +:+ target) = has_char c target.
Proof. intros H. by rewrite has_char_app, H. Qed.

(** The directory resolves a plain id to itself. *)
Lemma do_GET_plain_id target AGENTS :
  plain_id target = true →
  Directory.do_GET ("/a2a/agents/" +:+ target) AGENTS
  = Some (Directory._handle_get_agent target AGENTS).
Proof.
  unfold plain_id. rewrite !andb_true_iff, !negb_true_iff.
  intros [[[Hslash Hquery] Hfrag] Hparams].
  unfold Directory.do_GET, Directory.urlparse_path.
  change (Directory.origin_form ("/a2a/agents/" +:+ target)) with true.
  cbn [mbind option_bind]. unfold Directory.route_GET.
  rewrite (cut_at_absent "#") by by rewrite has_char_agents_path.
  rewrite (cut_at_absent "?") by by rewrite has_char_agents_path.
  rewrite cut_params_absent by by rewrite has_char_agents_path.
  assert (String.eqb ("/a2a/agents/" +:+ target) "/a2a/agents" = false) as ->
    by reflexivity.
  assert (String.prefix "/a2a/agents/" ("/a2a/agents/" +:+ target) = true) as ->
    by (simpl; by destruct target).
  assert (split "/" ("/a2a/agents/" +:+ target) = [""; "a2a"; "agents"; target]) as ->.
  { change ("/a2a/agents/" +:+ target)
      with ("" +:+ String "/" ("a2a" +:+ String "/" ("agents" +:+ String "/" target))).
    rewrite !split_first by reflexivity. by rewrite (split_absent _ _ Hslash). }
  reflexivity.
Qed.

(** When the directory's answer to the lookup is an HTTP error,
    [send_task] raises "Agent not found" after that one GET, and posts
    nothing. *)
Lemma send_task_lookup_error net self task_id target action input_data code text :
  http_get net (directory_url self +:+ "/a2a/agents/" +:+ target) = HTTPError code text →
  send_task net self task_id target action input_data
  = ([EvGet (directory_url self +:+ "/a2a/agents/" +:+ target)],
     Raise (ValueError ("Agent not found: " +:+ target))).
Proof.
  intros Hget. unfold send_task, mbind, io_mbind, io_bind, _get.
  rewrite Hget. reflexivity.
Qed.

Lemma forallb_chars_app (f : ascii → bool) a b :
  forallb f (list_ascii_of_string (a +:+ b))
  = forallb f (list_ascii_of_string a) && forallb f (list_ascii_of_string b).
Proof.
  induction a as [|c a IH]; [done|].
  change (String c a +:+ b) with (String c (a +:+ b)).
  cbn [list_ascii_of_string forallb]. by rewrite IH, andb_assoc.
Qed.

(** Settle comparisons of character codes by cases. *)
Ltac code_cases :=
  repeat match goal with
         | |- context [(?a <=? ?b)%N] => destruct (N.leb_spec a b)
         | |- context [(?a =? ?b)%N] => destruct (N.eqb_spec a b)
         end;
  simpl; try reflexivity; try discriminate; lia.

Lemma url_safe_not_space c :
  in_range 33 126 (N_of_ascii c) = true → is_space c = false.
Proof.
  unfold is_space, in_range. generalize (N_of_ascii c). intros n. code_cases.
Qed.

Lemma rstrip_with_clean p s :
  forallb (λ c, negb (p c)) (list_ascii_of_string s) = true → rstrip_with p s = s.
Proof.
  induction s as [|c s IH]; [done|].
  cbn [list_ascii_of_string forallb]. intros [Hc Hs]%andb_true_iff.
  cbn [rstrip_with]. rewrite (IH Hs). apply negb_true_iff in Hc. rewrite Hc.
  by destruct s.
Qed.

Lemma rstrip_with_app_clean p a b :
  b ≠ "" →
  forallb (λ c, negb (p c)) (list_ascii_of_string b) = true →
  rstrip_with p (a +:+ b) = a +:+ b.
Proof.
  intros Hne Hb. induction a as [|c a IH].
  - by apply rstrip_with_clean.
  - change (String c a +:+ b) with (String c (a +:+ b)).
    cbn [rstrip_with]. rewrite IH. destruct (a +:+ b) eqn:E; [|done].
    destruct a; [by destruct Hne | discriminate].
Qed.

Lemma drop_fragment_absent s : has_char "#" s = false → drop_fragment s = s.
Proof.
  induction s as [|c s IH]; [done|].
  rewrite has_char_cons. intros [Hc Hs]%orb_false_elim.
  cbn [drop_fragment]. by rewrite Hs, Ascii.eqb_sym, Hc.
Qed.

Lemma refused_safe s : url_safe s = true → refused s = None.
Proof.
  unfold url_safe, refused. intros Hsafe.
  assert (∀ f, (∀ n, in_range 33 126 n = true → f n = false) →
               existsb f (map N_of_ascii (list_ascii_of_string s)) = false) as Hnone.
  { intros f Hf. induction s as [|c s IH]; [done|].
    cbn [list_ascii_of_string forallb] in Hsafe.
    apply andb_true_iff in Hsafe as [Hc Hs].
    cbn [list_ascii_of_string map existsb]. by rewrite (Hf _ Hc), (IH Hs). }
  rewrite !Hnone; [done | |]; intros n; unfold in_range; code_cases.
Qed.

(** The lookup of a sendable id reaches [get] of that id. *)
Lemma directory_get_sendable base AGENTS target :
  sendable_id target = true →
  directory_get base AGENTS (base +:+ "/a2a/agents/" +:+ target)
  = serve_directory (Directory._handle_get_agent target AGENTS).
Proof.
  unfold sendable_id. intros [Hplain Hsafe]%andb_true_iff.
  assert (url_safe ("/a2a/agents/" +:+ target) = true) as Hpath.
  { unfold url_safe in *. by rewrite forallb_chars_app, Hsafe. }
  assert (has_char "#" ("/a2a/agents/" +:+ target) = false) as Hfrag.
  { rewrite has_char_agents_path by done. unfold plain_id in Hplain.
    rewrite !andb_true_iff, !negb_true_iff in Hplain. tauto. }
  unfold directory_get.
  rewrite rstrip_with_app_clean, strip_prefix_app.
  - rewrite drop_fragment_absent, refused_safe by done.
    by rewrite do_GET_plain_id.
  - by destruct target.
  - unfold url_safe in Hpath. revert Hpath.
    generalize (list_ascii_of_string ("/a2a/agents/" +:+ target)).
    intros l Hl. apply forallb_forall. intros c Hc.
    apply negb_true_iff, url_safe_not_space.
    by apply (proj1 (forallb_forall _ _) Hl).
Qed.

(** For a sendable id that the registry does not hold, the whole path
    holds: the directory answers 404 and the client raises before any
    POST. *)
Lemma send_task_unregistered_sendable_id
    AGENTS peers self task_id target action input_data :
  sendable_id target = true →
  dict_get target AGENTS = None →
  send_task (directory_network (directory_url self) AGENTS peers)
            self task_id target action input_data
  = ([EvGet (directory_url self +:+ "/a2a/agents/" +:+ target)],
     Raise (ValueError ("Agent not found: " +:+ target))).
Proof.
  intros Hsend Habsent.
  apply (send_task_lookup_error _ _ _ _ _ _ 404
           (dumps (Directory.payload_json (Directory.Error "Agent not found")))).
  cbn [http_get directory_network]. rewrite directory_get_sendable by done.
  unfold Directory._handle_get_agent. by rewrite Habsent.
Qed.

(** An id with a space never reaches the directory: the client refuses
    the URL and [send_task] raises that, with no request made to a peer. *)
Lemma send_task_space_id_refused :
  send_task (directory_network "http://localhost:8080" Spec.echo_registry accepting_peers)
            requester "task-1" "my agent" "ping" (JObj [])
  = ([EvGet "http://localhost:8080/a2a/agents/my agent"],
     Raise (OtherError "InvalidURL")).
Proof. vm_compute. reflexivity. Qed.

(** C6 at the failing input. "x/echo-agent" is not registered, yet the
    directory resolves the last segment of the path, "echo-agent": the
    lookup succeeds and the envelope is posted to the echo agent. *)
Theorem send_task_slash_id_reaches_other_agent :
  dict_get "x/echo-agent" Spec.echo_registry = None ∧
  send_task (directory_network "http://localhost:8080" Spec.echo_registry accepting_peers)
            requester "task-1" "x/echo-agent" "ping" (JObj [])
  = ([EvGet "http://localhost:8080/a2a/agents/x/echo-agent";
      EvPost "http://localhost:9001"
             (envelope "task-1" "ping" "requester-demo" (JObj []))],
     Ok (JObj [("received_at", JStr "http://localhost:9001")])).
Proof. split; vm_compute; reflexivity. Qed.

End lookup_facts.

(** ** The task router *)

(** Run one bind of the exception monad. *)
Ltac step := cbn [mbind result_bind bind].

Section router_facts.
Import Bridge RouterSpec.

Lemma any_in_cons kw kws s : any_in (kw :: kws) s = contains kw s || any_in kws s.
Proof. reflexivity. Qed.

Lemma any_in_nil s : any_in [] s = false.
Proof. reflexivity. Qed.

(** Settle the condition at the head of the chain; a match ends the proof. *)
Ltac settle_head :=
  match goal with
  | |- context [if any_in ?kws ?s then _ else _] =>
      destruct (any_in kws s) eqn:?; cbn [orb]; [reflexivity|]
  | |- context [if contains ?kw ?s || _ then _ else _] =>
      destruct (contains kw s) eqn:?; cbn [orb]; [reflexivity|]
  | |- context [if false || _ then _ else _] => cbn [orb]
  end.

(** The chain of tests in [_determine_target_agent] is the rule table
    read first match wins. *)
Lemma determine_target_agent_route action input_data :
  _determine_target_agent action input_data = route action input_data.
Proof.
  unfold _determine_target_agent, route, rules.
  cbn [first_match]. unfold rule_matches.
  cbn [action_keywords input_keywords target].
  set (a := lower action). set (i := lower (str input_data)).
  rewrite !(any_in_cons _ _ i), !(any_in_nil i), !orb_false_r.
  repeat settle_head.
  reflexivity.
Qed.

(** The target is one of the five dictionaries the function builds. *)
Lemma determine_target_agent_cases action input_data :
  ∃ agent_id nm,
    _determine_target_agent action input_data = target_dict agent_id nm ∧
    agent_id ∈ ["code"; "data"; "api"; "researcher"; "writer"].
Proof.
  unfold _determine_target_agent.
  repeat match goal with
         | |- context [if ?b then _ else _] =>
             destruct b; [eexists _, _; split; [reflexivity | set_solver] |]
         end.
  eexists _, _. split; [reflexivity | set_solver].
Qed.

Lemma first_match_none rs a i :
  (∀ r, r ∈ rs → rule_matches r a i = false) → first_match rs a i = default_target.
Proof.
  induction rs as [|r rs IH]; [done|].
  intros Hnone. simpl. rewrite (Hnone r) by left.
  apply IH. intros r' Hr'. apply Hnone. by right.
Qed.

(** Evaluate the tests on an action that is a literal. *)
Ltac eval_action_tests a :=
  repeat match goal with
         | |- context [any_in ?kws a] =>
             let v := eval vm_compute in (any_in kws a) in
             change (any_in kws a) with v
         end.

(** C4 as stated fails: the code category's fallback on the input runs
    before the research category looks at the action, so the action
    "research AI trends" with an input that mentions "code" goes to the
    code agent, not to the researcher. *)
Lemma research_action_code_input_goes_to_code :
  _determine_target_agent "research AI trends" (JObj [("topic", JStr "code")])
  = target_dict "code" "Code Agent" ∧
  _determine_target_agent "research AI trends" (JObj [("topic", JStr "code")])
  ≠ target_dict "researcher" "Researcher".
Proof. split; [vm_compute; reflexivity | vm_compute; discriminate]. Qed.

(** C4, amended. The classification is a function of the action and the
    input: the rule table in the order code, data, api, research, write,
    first match wins, each category tested on the lower-cased action and
    then on the lower-cased stringified input. The action "implement a
    function" goes to code for every input; the action "research AI trends"
    goes to researcher when the stringified input has none of the code and
    data keywords; an action and input that match no keyword go to the
    default, researcher. *)
Theorem router_follows_rule_order action input_data :
  _determine_target_agent action input_data
  = first_match rules (lower action) (lower (str input_data)) ∧
  _determine_target_agent "implement a function" input_data
  = target_dict "code" "Code Agent" ∧
  (any_in ["code"; "program"; "analyze"; "analytics"; "data"]
          (lower (str input_data)) = false →
   _determine_target_agent "research AI trends" input_data
   = target_dict "researcher" "Researcher") ∧
  ((∀ r, r ∈ rules → rule_matches r (lower action) (lower (str input_data)) = false) →
   _determine_target_agent action input_data = target_dict "researcher" "Researcher").
Proof.
  split_and!.
  - apply determine_target_agent_route.
  - unfold _determine_target_agent.
    set (a := lower "implement a function"). eval_action_tests a. reflexivity.
  - intros Hinput. rewrite !any_in_cons, any_in_nil, orb_false_r in Hinput.
    repeat (apply orb_false_elim in Hinput as [? Hinput]).
    unfold _determine_target_agent.
    set (a := lower "research AI trends"). eval_action_tests a.
    set (i := lower (str input_data)) in *.
    repeat match goal with
           | H : contains ?kw i = false |- _ => rewrite H; clear H
           end.
    reflexivity.
  - intros Hnone. rewrite determine_target_agent_route.
    by apply first_match_none.
Qed.

Lemma router_follows_rule_order_witness :
  _determine_target_agent "research AI trends" (JObj [])
  = target_dict "researcher" "Researcher" ∧
  _determine_target_agent "summarize this" (JObj [])
  = target_dict "researcher" "Researcher".
Proof.
  destruct (router_follows_rule_order "summarize this" (JObj []))
    as (_ & _ & Hresearch & Hdefault).
  split.
  - apply Hresearch. vm_compute. reflexivity.
  - apply Hdefault.
    intros r Hr. unfold rules in Hr.
    repeat (apply elem_of_cons in Hr as [->|Hr]; [vm_compute; reflexivity|]).
    by apply elem_of_nil in Hr.
Defined.

(** C9. The classification returns, for every action string and input,
    a dictionary whose agent id is one of the five targets and is not
    empty; the dictionary is truthy, so every response [_handle_task] sends
    has status 200: the 400 branch "Could not determine target agent" is
    never taken. *)
Theorem router_is_total action input_data run request :
  (∃ agent_id,
     item (_determine_target_agent action input_data) "agent_id" = Ok (JStr agent_id) ∧
     agent_id ∈ ["code"; "data"; "api"; "researcher"; "writer"] ∧
     agent_id ≠ "") ∧
  truthy (_determine_target_agent action input_data) = true ∧
  (∀ status body, _handle_task run request = Ok (status, body) → status = 200) ∧
  _handle_task run request
  ≠ Ok (400, JObj [("error", JStr "Could not determine target agent")]).
Proof.
  assert (∀ a i, truthy (_determine_target_agent a i) = true) as Htruthy.
  { intros a i. by destruct (determine_target_agent_cases a i) as (? & ? & -> & _). }
  assert (∀ status body, _handle_task run request = Ok (status, body) → status = 200)
    as Hstatus.
  { intros status body. unfold _handle_task.
    destruct (get request "params" (JObj [])) as [params|]; step; [|done].
    destruct (get request "id" (JStr "unknown")) as [task_id|]; step; [|done].
    destruct (get params "sender" (JStr "unknown")) as [sender|]; step; [|done].
    destruct (get params "action" (JStr "")) as [act|]; step; [|done].
    destruct (get params "input" (JObj [])) as [inp|]; step; [|done].
    destruct (as_str act) as [act'|]; step; [|done].
    rewrite Htruthy. cbn [negb].
    destruct (item _ "agent_id") as [agent_id|]; step; [|done].
    destruct (_execute_agent run agent_id act' inp) as [out|]; step; [|done].
    by intros [= <- _]. }
  split_and!.
  - destruct (determine_target_agent_cases action input_data)
      as (agent_id & nm & Heq & Hin).
    exists agent_id. split_and!; [by rewrite Heq | done |].
    intros ->.
    repeat (apply elem_of_cons in Hin as [?|Hin]; [discriminate|]).
    by apply elem_of_nil in Hin.
  - apply Htruthy.
  - exact Hstatus.
  - intros H. by apply Hstatus in H.
Qed.

Lemma router_is_total_witness :
  item (_determine_target_agent "summarize this" (JObj [])) "agent_id"
  = Ok (JStr "researcher") ∧
  ∃ body, _handle_task failing_backend summarize_request = Ok (200, body).
Proof.
  split; [reflexivity|].
  destruct (_handle_task failing_backend summarize_request) as [[status body]|e] eqn:E.
  - exists body.
    destruct (router_is_total "summarize this" (JObj []) failing_backend summarize_request)
      as (_ & _ & Hstatus & _).
    by rewrite (Hstatus status body E).
  - vm_compute in E. discriminate.
Defined.

End router_facts.

(** ** Backend failures at the bridge *)

Section backend_facts.
Import Bridge RouterSpec.

(** C3 as stated fails: the backend exits with code 1; the bridge answers
    200 with the error stream inside [output], and the status of the result
    is "completed", not "error". *)
Lemma backend_failure_status_is_completed :
  ∃ result,
    _handle_task failing_backend summarize_request
    = Ok (200, JObj [("jsonrpc", JStr "2.0"); ("id", JStr "t1"); ("result", result)]) ∧
    item result "output"
    = Ok (JObj [("error", JStr "boom"); ("agent", JStr "researcher")]) ∧
    item result "status" = Ok (JStr "completed") ∧
    item result "status" ≠ Ok (JStr "error").
Proof.
  eexists. split_and!; [vm_compute; reflexivity | reflexivity | reflexivity | discriminate].
Qed.

Lemma execute_agent_failure run agent_id action input_data prompt message :
  build_prompt action input_data = Ok prompt →
  failure_message (run (command agent_id prompt) 120) = Some message →
  _execute_agent run agent_id action input_data
  = Ok (output_dict "error" message agent_id).
Proof.
  intros Hprompt Hfail. unfold _execute_agent. rewrite Hprompt. step.
  fold (command agent_id prompt).
  destruct (run (command agent_id prompt) 120) as [rc out err| |msg];
    simpl in Hfail.
  - destruct (rc =? 0); [done|]. by injection Hfail as ->.
  - by injection Hfail as <-.
  - by injection Hfail as ->.
Qed.

(** C3, amended. When the backend run ends with a non-zero exit, with the
    120-second timeout, or with any other exception, [_execute_agent]
    raises nothing and returns an error object: its "error" is the error
    stream, "Task timed out", or the exception's text, and its "agent" is
    the target. [_handle_task] answers 200 with that object as the [output]
    of a result whose status is "completed". *)
Theorem backend_failures_become_outputs
    (run : backend) d p task_id action input_data prompt :
  get (JObj d) "params" (JObj []) = Ok (JObj p) →
  get (JObj d) "id" (JStr "unknown") = Ok task_id →
  get (JObj p) "action" (JStr "") = Ok (JStr action) →
  get (JObj p) "input" (JObj []) = Ok input_data →
  build_prompt action input_data = Ok prompt →
  ∃ agent_id,
    item (_determine_target_agent action input_data) "agent_id" = Ok (JStr agent_id) ∧
    ∀ message,
      failure_message (run (command (JStr agent_id) prompt) 120) = Some message →
      _execute_agent run (JStr agent_id) action input_data
      = Ok (JObj [("error", JStr message); ("agent", JStr agent_id)]) ∧
      _handle_task run (JObj d)
      = Ok (200,
            JObj [("jsonrpc", JStr "2.0");
                  ("id", task_id);
                  ("result",
                   JObj [("taskId", task_id);
                         ("status", JStr "completed");
                         ("output", JObj [("error", JStr message);
                                          ("agent", JStr agent_id)])])]).
Proof.
  intros Hparams Hid Haction Hinput Hprompt.
  destruct (determine_target_agent_cases action input_data)
    as (agent_id & nm & Htarget & _).
  exists agent_id. split; [by rewrite Htarget|].
  intros message Hfail.
  pose proof (execute_agent_failure _ _ _ _ _ _ Hprompt Hfail) as Hexec.
  split; [exact Hexec|].
  unfold _handle_task. rewrite Hparams. step. rewrite Hid. step.
  cbn [get] in *. step. injection Haction as ->. injection Hinput as ->. step.
  cbn [as_str]. step. rewrite Htarget. cbn [truthy target_dict negb item dict_get].
  cbn. fold (target_dict agent_id nm). rewrite Hexec. reflexivity.
Qed.

Lemma backend_failures_become_outputs_witness :
  _handle_task (λ _ _, TimeoutExpired) summarize_request
  = Ok (200,
        JObj [("jsonrpc", JStr "2.0");
              ("id", JStr "t1");
              ("result",
               JObj [("taskId", JStr "t1");
                     ("status", JStr "completed");
                     ("output", JObj [("error", JStr "Task timed out");
                                      ("agent", JStr "researcher")])])]).
Proof.
  destruct (backend_failures_become_outputs (λ _ _, TimeoutExpired)
              [("id", JStr "t1"); ("method", JStr "a2a/task");
               ("params", JObj [("action", JStr "summarize this"); ("input", JObj [])])]
              [("action", JStr "summarize this"); ("input", JObj [])]
              (JStr "t1") "summarize this" (JObj [])
              (JStr ("Action: summarize this" +:+ newline +:+ "Input: {}"))
              eq_refl eq_refl eq_refl eq_refl eq_refl)
    as (agent_id & Htarget & Hfail).
  assert (agent_id = "researcher") as -> by (vm_compute in Htarget; congruence).
  destruct (Hfail "Task timed out" eq_refl) as [_ Hresp].
  exact Hresp.
Defined.

End backend_facts.

(** ** More on the registry: registration, lookup and listing *)

Section registry_more.
Import Directory Spec.
Implicit Types (AGENTS : dict AgentRecord) (W : list string).

Lemma dict_get_elem {V} (k : string) (v : V) (d : dict V) :
  NoDup (dict_keys d) → (dict_get k d = Some v ↔ (k, v) ∈ d).
Proof.
  unfold dict_keys. induction d as [|[k0 v0] d IH]; simpl.
  - intros _. split; [done | by intros ?%elem_of_nil].
  - intros [Hk0 Hnd]%NoDup_cons. rewrite elem_of_cons.
    destruct (String.eqb k k0) eqn:E.
    + apply String.eqb_eq in E. subst k0. split.
      * intros [= ->]. by left.
      * intros [[= ->]|Hin]; [done|].
        destruct Hk0. by apply (list_elem_of_fmap_2 fst) in Hin.
    + apply String.eqb_neq in E. rewrite (IH Hnd). split.
      * by right.
      * intros [[= ? ?]|?]; [congruence | done].
Qed.

Lemma bool_filter_sublist {A} (f : A → bool) (l : list A) :
  List.filter f l `sublist_of` l.
Proof.
  induction l as [|a l IH]; simpl; [done|].
  destruct (f a); [by apply sublist_skip | by apply sublist_cons].
Qed.

Lemma missing_nil_iff request :
  missing request = [] ↔
  ∃ agent_id nm caps ep, request = valid_request agent_id nm caps ep.
Proof.
  destruct request as [[a|] [n|] [c|] [e|]]; split;
    try (intros H; vm_compute in H; discriminate);
    try (intros (? & ? & ? & ? & H); discriminate).
  - intros _. by exists a, n, c, e.
  - reflexivity.
Qed.

(** Evaluate [missing] on a request whose fields are known to be there
    or not, and settle a membership in the result. *)
Ltac eval_missing :=
  repeat match goal with
         | |- context [missing ?r] =>
             let v := eval vm_compute in (missing r) in change (missing r) with v
         end.

Ltac settle_elem :=
  split; intros H;
  first [ discriminate H
        | by repeat constructor
        | exfalso;
          repeat (apply elem_of_cons in H as [H|H]; [discriminate H|]);
          by apply elem_of_nil in H ].

(** X1. [register] accepts a request exactly when none of the four
    required fields is missing. A rejected request answers 400 and names
    the missing fields, each field that is absent and no other, in the
    order agentId, name, capabilities, endpoint, and leaves the registry as
    it was. *)
Theorem register_rejects_incomplete now request AGENTS :
  ("agentId" ∈ missing request ↔ rq_agentId request = None) ∧
  ("name" ∈ missing request ↔ rq_name request = None) ∧
  ("capabilities" ∈ missing request ↔ rq_capabilities request = None) ∧
  ("endpoint" ∈ missing request ↔ rq_endpoint request = None) ∧
  missing request `sublist_of` ["agentId"; "name"; "capabilities"; "endpoint"] ∧
  (missing request = [] →
     ∃ agent_id nm caps ep,
       request = {| rq_agentId := Some agent_id; rq_name := Some nm;
                    rq_capabilities := Some caps; rq_endpoint := Some ep |} ∧
       _handle_register now request AGENTS
       = (dict_set agent_id
            {| agentId := agent_id; name := nm; capabilities := caps;
               endpoint := ep; registeredAt := now +:+ "Z" |} AGENTS,
          (200, Registered agent_id))) ∧
  (missing request ≠ [] →
     _handle_register now request AGENTS
     = (AGENTS,
        (400, Error ("Missing fields: " +:+ repr (JArr (map JStr (missing request))))))).
Proof.
  split_and!.
  - destruct request as [[a|] [n|] [c|] [e|]]; cbn [rq_agentId]; eval_missing; settle_elem.
  - destruct request as [[a|] [n|] [c|] [e|]]; cbn [rq_name]; eval_missing; settle_elem.
  - destruct request as [[a|] [n|] [c|] [e|]]; cbn [rq_capabilities]; eval_missing;
      settle_elem.
  - destruct request as [[a|] [n|] [c|] [e|]]; cbn [rq_endpoint]; eval_missing; settle_elem.
  - apply bool_filter_sublist.
  - intros (a & n & c & e & ->)%missing_nil_iff. by exists a, n, c, e.
  - intros Hmissing.
    destruct request as [[a|] [n|] [c|] [e|]]; try reflexivity.
    by destruct Hmissing.
Qed.

Lemma register_rejects_incomplete_witness :
  _handle_register "t" {| rq_agentId := Some "a"; rq_name := None;
                          rq_capabilities := Some ["x"]; rq_endpoint := None |}
                   echo_registry
  = (echo_registry, (400, Error "Missing fields: ['name', 'endpoint']")) ∧
  ∃ agent_id nm caps ep,
    echo_request
    = {| rq_agentId := Some agent_id; rq_name := Some nm;
         rq_capabilities := Some caps; rq_endpoint := Some ep |} ∧
    _handle_register "t" echo_request []
    = (dict_set agent_id
         {| agentId := agent_id; name := nm; capabilities := caps;
            endpoint := ep; registeredAt := "t" +:+ "Z" |} [],
       (200, Registered agent_id)).
Proof.
  split.
  - destruct (register_rejects_incomplete "t"
                {| rq_agentId := Some "a"; rq_name := None;
                   rq_capabilities := Some ["x"]; rq_endpoint := None |}
                echo_registry) as (_ & _ & _ & _ & _ & _ & H).
    rewrite H by (vm_compute; discriminate). vm_compute. reflexivity.
  - apply (register_rejects_incomplete "t" echo_request []). reflexivity.
Defined.

(** X2. What [register] stores, [get] returns: after a valid request is
    registered, [get] of its id answers 200 with the record made from the
    request and the clock, and [get] of any other id answers as before. *)
Theorem register_then_get now agent_id nm caps ep AGENTS other :
  _handle_get_agent agent_id
    (after_register now (valid_request agent_id nm caps ep) AGENTS)
  = (200, Agent (stored now agent_id nm caps ep)) ∧
  (other ≠ agent_id →
   _handle_get_agent other
     (after_register now (valid_request agent_id nm caps ep) AGENTS)
   = _handle_get_agent other AGENTS).
Proof.
  rewrite after_register_valid. unfold _handle_get_agent. split.
  - by rewrite dict_get_set_eq.
  - intros Hne. by rewrite dict_get_set_ne.
Qed.

Lemma register_then_get_witness :
  _handle_get_agent "echo-agent" echo_registry = (200, Agent echo_record) ∧
  _handle_get_agent "other" echo_registry = (404, Error "Agent not found").
Proof.
  destruct (register_then_get "2024-01-01T00:00:00" "echo-agent" "Echo Agent"
              ["echo"; "ping"] "http://localhost:9001" [] "other") as [Hsame Hother].
  split; [exact Hsame|].
  unfold echo_registry, echo_request. rewrite Hother by discriminate. reflexivity.
Defined.

Lemma dict_get_listed AGENTS agent_id b :
  registry_inv AGENTS →
  dict_get agent_id AGENTS = Some b ↔ b ∈ dict_values AGENTS ∧ agentId b = agent_id.
Proof.
  intros [Hnd Hid]. rewrite (dict_get_elem _ _ _ Hnd). split.
  - intros Hin. split; [by apply (list_elem_of_fmap_2 snd) in Hin|].
    by apply (proj1 (Forall_forall _ _) Hid) in Hin.
  - intros [(kv & -> & Hin)%list_elem_of_fmap <-].
    rewrite (proj1 (Forall_forall _ _) Hid kv Hin). by destruct kv.
Qed.

(** X3. [get] and [list] agree on a registry: [get(id)] answers 200 with
    a record exactly when [list] shows that record and its agentId is
    [id]; it answers 404 exactly when no listed record has that agentId. *)
Theorem get_agrees_with_list AGENTS agent_id a :
  registry_inv AGENTS →
  (_handle_get_agent agent_id AGENTS = (200, Agent a)
   ↔ a ∈ dict_values AGENTS ∧ agentId a = agent_id) ∧
  (_handle_get_agent agent_id AGENTS = (404, Error "Agent not found")
   ↔ ∀ b, b ∈ dict_values AGENTS → agentId b ≠ agent_id).
Proof.
  intros Hinv.
  pose proof (λ b, dict_get_listed AGENTS agent_id b Hinv) as Hget.
  unfold _handle_get_agent. split.
  - rewrite <-Hget. destruct (dict_get agent_id AGENTS); split; congruence.
  - destruct (dict_get agent_id AGENTS) as [b|]; split; try done.
    + intros Hnone. destruct (proj1 (Hget b) eq_refl) as [Hin Hidb].
      by destruct (Hnone b Hin).
    + intros _ b Hb Hidb. discriminate (proj2 (Hget b) (conj Hb Hidb)).
Qed.

Lemma get_agrees_with_list_witness :
  registry_inv echo_registry ∧
  (_handle_get_agent "echo-agent" echo_registry = (200, Agent echo_record)
   ↔ echo_record ∈ dict_values echo_registry ∧ agentId echo_record = "echo-agent").
Proof.
  assert (registry_inv echo_registry) as Hinv.
  { split; [apply NoDup_singleton | by repeat constructor]. }
  split; [exact Hinv|].
  apply (get_agrees_with_list echo_registry "echo-agent" echo_record Hinv).
Defined.

(** X5. A first registration appends: when the id is not yet in the
    registry, [list] afterwards is [list] before followed by the new
    record, so agents are listed in the order they first registered. *)
Theorem register_new_appends now agent_id nm caps ep AGENTS :
  agent_id ∉ dict_keys AGENTS →
  _handle_list_agents (after_register now (valid_request agent_id nm caps ep) AGENTS)
  = (200, Agents (dict_values AGENTS ++ [stored now agent_id nm caps ep])).
Proof.
  intros Hnew. rewrite after_register_valid. unfold _handle_list_agents.
  rewrite dict_keys_set_new by done. unfold dict_values. by rewrite map_app.
Qed.

Lemma register_new_appends_witness :
  _handle_list_agents
    (after_register "t2" (valid_request "code-agent" "Coder" ["code"] "http://h:3")
                    echo_registry)
  = (200, Agents [echo_record; stored "t2" "code-agent" "Coder" ["code"] "http://h:3"]).
Proof.
  apply (register_new_appends "t2" "code-agent" "Coder" ["code"] "http://h:3"
           echo_registry).
  vm_compute. intros H. apply list_elem_of_singleton in H. discriminate.
Defined.

(** X6. [discover] depends on the wanted capabilities as a set: two
    non-empty wanted lists with the same elements get the same answer,
    whatever their order and repetitions; and an agent registered with no
    capabilities is never discovered. *)
Theorem discover_wanted_as_set W1 W2 AGENTS :
  W1 ≠ [] →
  (∀ c, c ∈ W1 ↔ c ∈ W2) →
  _handle_discover {| dq_capabilities := Some W1 |} AGENTS
  = _handle_discover {| dq_capabilities := Some W2 |} AGENTS ∧
  ∀ found a,
    _handle_discover {| dq_capabilities := Some W1 |} AGENTS = (200, Agents found) →
    a ∈ found → capabilities a ≠ [].
Proof.
  intros Hne Hsame.
  assert (W2 ≠ []) as Hne2.
  { destruct W1 as [|c W1]; [done|]. intros ->.
    by apply (elem_of_nil c), Hsame; left. }
  unfold _handle_discover. simpl. rewrite !discover_loop_filter.
  split.
  - destruct W1, W2; try done. f_equal. f_equal. apply list_filter_iff.
    intros a. unfold intersects. split; intros (c & Hc & Hin); exists c;
      (split; [by apply Hsame | done]).
  - intros found a Hfound Ha Hcaps. destruct W1; [done|].
    injection Hfound as <-. apply list_elem_of_filter in Ha as [(c & _ & Hin) _].
    rewrite Hcaps in Hin. by apply elem_of_nil in Hin.
Qed.

Lemma discover_wanted_as_set_witness :
  _handle_discover {| dq_capabilities := Some ["ping"; "code"] |} echo_registry
  = _handle_discover {| dq_capabilities := Some ["code"; "ping"; "code"] |} echo_registry.
Proof.
  apply (discover_wanted_as_set ["ping"; "code"] ["code"; "ping"; "code"] echo_registry).
  - discriminate.
  - intros c. rewrite !elem_of_cons, !elem_of_nil. tauto.
Defined.

End registry_more.

(** ** The directory's request routing *)

Section routing_facts.
Import Directory Spec Scenario.
Implicit Types (AGENTS : dict AgentRecord).

Lemma route_POST_registry now parsed_path b AGENTS :
  (route_POST now parsed_path b AGENTS).1 = AGENTS ∨
  (∃ agent_id nm caps ep,
     b = Object (valid_request agent_id nm caps ep) ∧
     parsed_path = "/a2a/register" ∧
     route_POST now parsed_path b AGENTS
     = (dict_set agent_id (stored now agent_id nm caps ep) AGENTS,
        Ok (200, Registered agent_id))).
Proof.
  unfold route_POST. destruct b as [h| | |v|request]; try by left.
  - left. by destruct (String.eqb parsed_path "/a2a/register"),
                      (String.eqb parsed_path "/a2a/discover").
  - destruct (String.eqb parsed_path "/a2a/register") eqn:Epath.
    + apply String.eqb_eq in Epath.
      destruct request as [[a|] [n|] [c|] [e|]]; try by left.
      right. by exists a, n, c, e.
    + left. by destruct (String.eqb parsed_path "/a2a/discover").
Qed.

(** X7. Of all POSTs only a complete registration writes. When a POST
    leaves the registry changed, its parsed path is /a2a/register, its
    body is a JSON object with the four required fields, the new registry
    is the old one with the record of that request stored under its id, and
    the answer is 200. Every other POST, whatever its path and whether its
    body is an object, a list, text that is not JSON or bytes that are not
    text, leaves the registry as it was. *)
Theorem post_writes_only_on_register now parsed_path b AGENTS :
  (route_POST now parsed_path b AGENTS).1 ≠ AGENTS →
  ∃ agent_id nm caps ep,
    b = Object {| rq_agentId := Some agent_id; rq_name := Some nm;
                  rq_capabilities := Some caps; rq_endpoint := Some ep |} ∧
    parsed_path = "/a2a/register" ∧
    route_POST now parsed_path b AGENTS
    = (dict_set agent_id
         {| agentId := agent_id; name := nm; capabilities := caps;
            endpoint := ep; registeredAt := now +:+ "Z" |} AGENTS,
       Ok (200, Registered agent_id)) ∧
    ∀ path, urlparse_path path = Some parsed_path →
            do_POST now path b AGENTS = Some (route_POST now parsed_path b AGENTS).
Proof.
  intros Hchanged.
  destruct (route_POST_registry now parsed_path b AGENTS)
    as [?|(a & n & c & e & -> & -> & Hreply)]; [done|].
  exists a, n, c, e. split_and!; [done | done | exact Hreply |].
  intros path Hpath. unfold do_POST. by rewrite Hpath.
Qed.

Lemma post_writes_only_on_register_witness :
  ∃ agent_id nm caps ep,
    Object echo_request
    = Object {| rq_agentId := Some agent_id; rq_name := Some nm;
                rq_capabilities := Some caps; rq_endpoint := Some ep |} ∧
    "/a2a/register" = "/a2a/register" ∧
    route_POST "t" "/a2a/register" (Object echo_request) []
    = (dict_set agent_id
         {| agentId := agent_id; name := nm; capabilities := caps;
            endpoint := ep; registeredAt := "t" +:+ "Z" |} [],
       Ok (200, Registered agent_id)) ∧
    ∀ path, urlparse_path path = Some "/a2a/register" →
            do_POST "t" path (Object echo_request) []
            = Some (route_POST "t" "/a2a/register" (Object echo_request) []).
Proof.
  apply (post_writes_only_on_register "t" "/a2a/register" (Object echo_request) []).
  vm_compute. discriminate.
Defined.

(** A POST that does not register leaves the registry alone, also when
    it fails: a list as body of /a2a/register is answered 400, a number
    raises, and bytes that are not text raise on every path. *)
Lemma post_edge_bodies now AGENTS :
  route_POST now "/a2a/register" (Value (VArr [JStr "agentId"])) AGENTS
  = (AGENTS, Ok (400, Error "Missing fields: ['name', 'capabilities', 'endpoint']")) ∧
  route_POST now "/a2a/register" (Value (VNum 5)) AGENTS = (AGENTS, Raise TypeError) ∧
  route_POST now "/a2a/discover" (Value (VArr [])) AGENTS
  = (AGENTS, Raise AttributeError) ∧
  do_POST now "/nowhere" NotText AGENTS = Some (AGENTS, Raise UnicodeDecodeError) ∧
  do_POST now "/nowhere" NotJson AGENTS = Some (AGENTS, Ok (400, Error "Invalid JSON")).
Proof. split_and!; reflexivity. Qed.

Lemma registry_inv_route_POST now parsed_path b AGENTS :
  registry_inv AGENTS → registry_inv (route_POST now parsed_path b AGENTS).1.
Proof.
  intros Hinv.
  destruct (route_POST_registry now parsed_path b AGENTS)
    as [->|(a & n & c & e & _ & _ & ->)]; [done|].
  by apply (registry_inv_register now (valid_request a n c e)).
Qed.

Lemma registry_inv_serve_posts posts AGENTS :
  registry_inv AGENTS → registry_inv (serve_posts posts AGENTS).
Proof.
  revert AGENTS. induction posts as [|q posts IH]; intros AGENTS Hinv; [done|].
  apply IH. by apply registry_inv_route_POST.
Qed.

(** X4. Whatever POSTs a directory has handled since it started, [list]
    never shows two records with the same agentId, and every record is the
    one [get] returns for its own agentId. *)
Theorem served_registry_ids_unique posts :
  NoDup (map agentId (dict_values (serve_posts posts []))) ∧
  ∀ a, a ∈ dict_values (serve_posts posts []) →
       _handle_get_agent (agentId a) (serve_posts posts []) = (200, Agent a).
Proof.
  pose proof (registry_inv_serve_posts posts [] registry_inv_nil) as Hinv.
  split.
  - destruct Hinv as [Hnd Hid].
    assert (map agentId (dict_values (serve_posts posts []))
            = dict_keys (serve_posts posts [])) as ->; [|done].
    unfold dict_values, dict_keys. rewrite map_map.
    apply map_ext_in. intros kv Hin.
    apply (proj1 (Forall_forall _ _) Hid). by apply list_elem_of_In.
  - intros a Ha. unfold _handle_get_agent.
    by rewrite (proj2 (dict_get_listed _ (agentId a) a Hinv)).
Qed.

Lemma cut_at_found c p r :
  has_char c p = false → cut_at c (p +:+ String c r) = p.
Proof.
  induction p as [|a p IH].
  - intros _. simpl. by rewrite Ascii.eqb_refl.
  - rewrite has_char_cons. intros [Hc Hp]%orb_false_elim.
    change (String a p +:+ String c r) with (String a (p +:+ String c r)).
    simpl. by rewrite Ascii.eqb_sym, Hc, IH.
Qed.

Lemma cut_at_twice c s : cut_at c (cut_at c s) = cut_at c s.
Proof.
  induction s as [|a s IH]; [done|]. simpl.
  destruct (Ascii.eqb a c) eqn:E; [done|]. simpl. by rewrite E, IH.
Qed.

Lemma cut_at_commute c1 c2 s :
  cut_at c1 (cut_at c2 s) = cut_at c2 (cut_at c1 s).
Proof.
  induction s as [|a s IH]; [done|]. simpl.
  destruct (Ascii.eqb a c2) eqn:E2, (Ascii.eqb a c1) eqn:E1; simpl;
    rewrite ?E1, ?E2; [done | done | done | by rewrite IH].
Qed.

(** X8. GET routing ignores the query string: a request target and the
    same target followed by [?] and any text get the same answer, and a
    target in origin form is answered in both cases. *)
Theorem do_GET_ignores_query path query AGENTS :
  has_char "?" path = false →
  do_GET (path +:+ String "?" query) AGENTS = do_GET path AGENTS ∧
  (origin_form path = true →
   ∃ r, do_GET path AGENTS = Some r ∧
        do_GET (path +:+ String "?" query) AGENTS = Some r).
Proof.
  intros Hq.
  cut (do_GET (path +:+ String "?" query) AGENTS = do_GET path AGENTS).
  { intros Hsame. split; [exact Hsame|]. intros Hform. rewrite Hsame.
    unfold do_GET, urlparse_path. rewrite Hform. by eexists. }
  assert (origin_form (path +:+ String "?" query) = origin_form path) as Hform.
  { by destruct path as [|c [|c' r]]. }
  assert (urlparse_path (path +:+ String "?" query) = urlparse_path path) as Hparse.
  { unfold urlparse_path. rewrite Hform. destruct (origin_form path); [|done].
    do 2 f_equal.
    rewrite (cut_at_commute "?" "#" (path +:+ String "?" query)).
    rewrite (cut_at_commute "?" "#" path).
    by rewrite (cut_at_found "?" path query Hq), (cut_at_absent "?" path Hq). }
  unfold do_GET. by rewrite Hparse.
Qed.

Lemma do_GET_ignores_query_witness :
  do_GET "/a2a/agents/echo-agent?verbose=1" echo_registry
  = do_GET "/a2a/agents/echo-agent" echo_registry ∧
  do_GET "/a2a/agents/echo-agent" echo_registry = Some (200, Agent echo_record).
Proof.
  split; [|reflexivity].
  by apply (do_GET_ignores_query "/a2a/agents/echo-agent" "verbose=1" echo_registry).
Defined.

End routing_facts.

(** ** The id a lookup path resolves to *)

Section segment_facts.
Import Directory Spec Scenario.

Lemma split_nonempty sep s : split sep s ≠ [].
Proof.
  destruct s as [|c r]; [done|]. rewrite split_cons.
  destruct (Ascii.eqb c sep); [done|]. by destruct (split sep r).
Qed.

(** Fields before a separator are complete: the split of the whole is
    the split of the two parts. *)
Lemma split_app sep p r :
  split sep (p +:+ String sep r) = split sep p ++ split sep r.
Proof.
  induction p as [|c p IH].
  - change ("" +:+ String sep r) with (String sep r).
    by rewrite split_cons, Ascii.eqb_refl.
  - change (String c p +:+ String sep r) with (String c (p +:+ String sep r)).
    rewrite !split_cons, IH. destruct (Ascii.eqb c sep); [done|].
    pose proof (split_nonempty sep p). by destruct (split sep p).
Qed.

Lemma last_item_app l1 l2 : l2 ≠ [] → last_item (l1 ++ l2) = last_item l2.
Proof.
  intros Hne. unfold last_item. induction l1 as [|x l1 IH]; [done|].
  simpl. destruct (l1 ++ l2) eqn:E; [|done].
  apply app_eq_nil in E as [_ ->]. done.
Qed.

Lemma cut_params_last_segment p target :
  has_char "/" target = false → has_char ";" target = false →
  cut_params (p +:+ String "/" target) = p +:+ String "/" target.
Proof.
  intros Hslash Hparams. induction p as [|a p IH].
  - change ("" +:+ String "/" target) with (String "/" target).
    cbn [cut_params]. rewrite Hslash. apply cut_at_absent.
    by rewrite has_char_cons, Hparams.
  - change (String a p +:+ String "/" target)
      with (String a (p +:+ String "/" target)).
    cbn [cut_params]. rewrite has_char_app, has_char_cons. simpl.
    rewrite orb_true_r. by rewrite IH.
Qed.

(** X9. A lookup resolves the last segment of the path only:
    GET /a2a/agents/<prefix>/<id> is answered as [get(id)], whatever the
    prefix (free of [?] and [#]); with an empty prefix the path
    /a2a/agents/<id> is answered as [get(id)] as well. *)
Theorem do_GET_resolves_last_segment pre target AGENTS :
  plain_id target = true →
  has_char "?" pre = false →
  has_char "#" pre = false →
  do_GET ("/a2a/agents/" +:+ pre +:+ String "/" target) AGENTS
  = Some (_handle_get_agent target AGENTS) ∧
  do_GET ("/a2a/agents/" +:+ target) AGENTS = Some (_handle_get_agent target AGENTS).
Proof.
  intros Hplain Hq Hf. split; [|by apply do_GET_plain_id].
  unfold plain_id in Hplain. rewrite !andb_true_iff, !negb_true_iff in Hplain.
  destruct Hplain as [[[Hslash Hquery] Hfrag] Hparams].
  set (path := "/a2a/agents/" +:+ pre +:+ String "/" target).
  assert (path = ("/a2a/agents/" +:+ pre) +:+ String "/" target) as Hassoc.
  { unfold path. simpl. reflexivity. }
  assert (∀ c, c ≠ "/"%char → has_char c pre = false → has_char c target = false →
               has_char c "/a2a/agents/" = false → has_char c path = false) as Habsent.
  { intros c Hc Hpre Htarget Hroot. unfold path.
    rewrite has_char_app, Hroot, has_char_app, Hpre, has_char_cons, Htarget.
    apply Ascii.eqb_neq in Hc. by rewrite Hc. }
  assert (urlparse_path path = Some path) as Hparse.
  { unfold urlparse_path. change (origin_form path) with true. cbv iota. f_equal.
    rewrite (cut_at_absent "#") by (by apply Habsent).
    rewrite (cut_at_absent "?") by (by apply Habsent).
    rewrite Hassoc. by apply cut_params_last_segment. }
  unfold do_GET. rewrite Hparse. cbn [mbind option_bind]. unfold route_GET.
  assert (String.eqb path "/a2a/agents" = false) as -> by reflexivity.
  assert (String.prefix "/a2a/agents/" path = true) as ->.
  { unfold path. simpl. by destruct (pre +:+ String "/" target). }
  rewrite Hassoc, split_app, last_item_app by apply split_nonempty.
  by rewrite (split_absent _ _ Hslash).
Qed.

Lemma do_GET_resolves_last_segment_witness :
  do_GET "/a2a/agents/teams/x/echo-agent" echo_registry
  = Some (200, Agent echo_record).
Proof.
  destruct (do_GET_resolves_last_segment "teams/x" "echo-agent" echo_registry
              eq_refl eq_refl eq_refl) as [H _].
  exact H.
Defined.

End segment_facts.

(** ** More on the client *)

Section client_more.
Import SDK Deployment Scenario.

Lemma rstrip_with_rest p s :
  ∃ t, s = rstrip_with p s +:+ t ∧
       forallb p (list_ascii_of_string t) = true ∧
       (rstrip_with p s = "" → t = s).
Proof.
  induction s as [|c s (t & Hs & Ht & Hempty)].
  - by exists "".
  - cbn [rstrip_with]. destruct (rstrip_with p s) as [|c' r'] eqn:E.
    + specialize (Hempty eq_refl). subst t.
      destruct (p c) eqn:Hc.
      * exists (String c s). simpl. by rewrite Hc, Ht.
      * exists s. done.
    + exists t. split_and!; [| done | done].
      change (String c (String c' r') +:+ t) with (String c (String c' r' +:+ t)).
      f_equal. exact Hs.
Qed.

Lemma rstrip_with_last p s r c :
  rstrip_with p s = r +:+ String c "" → p c = false.
Proof.
  revert r. induction s as [|a s IH]; intros r.
  - by destruct r.
  - cbn [rstrip_with]. destruct (rstrip_with p s) as [|c' r'] eqn:E.
    + destruct (p a) eqn:Ha.
      * by destruct r.
      * destruct r as [|b r]; simpl;
          [by intros [= ->] | intros [= _ Hr]; by destruct r].
    + destruct r as [|b r]; simpl.
      * intros H. injection H as _ H'. discriminate H'.
      * intros [= _ Hr]. by apply (IH r).
Qed.

(** X10. An agent's directory address loses every trailing slash and
    nothing else: the address given is the stored one followed by slashes
    only, and the stored one does not end in a slash, so the request paths
    are appended to it with a single slash. *)
Theorem init_strips_trailing_slashes agent_id name capabilities directory :
  let self := __init__ agent_id name capabilities directory in
  (∃ slashes,
     directory = directory_url self +:+ slashes ∧
     Forall (λ c, c = "/"%char) (list_ascii_of_string slashes)) ∧
  (∀ r, directory_url self ≠ r +:+ "/") ∧
  endpoint self = None.
Proof.
  simpl. split_and!; [| | done].
  - destruct (rstrip_with_rest (λ c, Ascii.eqb c "/") directory) as (t & Hs & Ht & _).
    exists t. split; [exact Hs|].
    apply Forall_forall. intros c Hc.
    apply forallb_forall with (x := c) in Ht; [by apply Ascii.eqb_eq in Ht|].
    by apply list_elem_of_In.
  - intros r Hr. by apply rstrip_with_last in Hr.
Qed.

(** X11. When the lookup returns a record without an "error" key whose
    endpoint is a string, [send_task] makes two requests and no more: the
    GET to the directory, then one POST to that endpoint of an envelope
    whose id and taskId are the call's task id and whose sender is the
    caller. What the peer answers is returned; an HTTP error status from
    the peer comes back as an error object, not as an exception. *)
Theorem send_task_delivers net self task_id target action input_data record ep :
  http_get net (directory_url self +:+ "/a2a/agents/" +:+ target) = HttpOk record →
  has "error" record = Ok false →
  item record "endpoint" = Ok (JStr ep) →
  send_task net self task_id target action input_data
  = ([EvGet (directory_url self +:+ "/a2a/agents/" +:+ target);
      EvPost ep (envelope task_id action (agent_id self) input_data)],
     match http_post net ep (envelope task_id action (agent_id self) input_data) with
     | HttpOk body => Ok body
     | HTTPError code text =>
         Ok (JObj [("error", JStr ("HTTP " +:+ pretty code)); ("message", JStr text)])
     | HttpFail e => Raise e
     end).
Proof.
  intros Hget Herr Hep.
  unfold send_task, mbind, io_mbind, io_bind, _get, lift.
  rewrite Hget, Herr, Hep. reflexivity.
Qed.

Lemma send_task_delivers_witness :
  send_task (directory_network "http://localhost:8080" Spec.echo_registry accepting_peers)
            requester "task-1" "echo-agent" "ping" (JObj [])
  = ([EvGet "http://localhost:8080/a2a/agents/echo-agent";
      EvPost "http://localhost:9001"
             (envelope "task-1" "ping" "requester-demo" (JObj []))],
     Ok (JObj [("received_at", JStr "http://localhost:9001")])).
Proof.
  apply (send_task_delivers
           (directory_network "http://localhost:8080" Spec.echo_registry accepting_peers)
           requester "task-1" "echo-agent" "ping" (JObj [])
           (Directory.agent_json Spec.echo_record) "http://localhost:9001");
    reflexivity.
Defined.




End client_more.

(** ** Discovery from the client, the server's replies, and the CLI *)

Section surface_facts.
Import SDK Deployment Scenario CLI.

(** X13. The client's [discover] posts once to /a2a/discover and returns
    the first agent of the directory's answer; it returns [None] when the
    answer lists no agent, and also when the directory answers with an
    HTTP error status, which it does not raise. *)
Theorem client_discover_first_or_none net self wanted :
  let url := directory_url self +:+ "/a2a/discover" in
  let body := JObj [("capabilities", JArr (map JStr wanted))] in
  (∀ d first rest,
     http_post net url body = HttpOk (JObj d) →
     dict_get "agents" d = Some (JArr (first :: rest)) →
     discover net self wanted = ([EvPost url body], Ok first)) ∧
  (∀ d,
     http_post net url body = HttpOk (JObj d) →
     default (JArr []) (dict_get "agents" d) = JArr [] →
     discover net self wanted = ([EvPost url body], Ok JNull)) ∧
  (∀ code text,
     http_post net url body = HTTPError code text →
     discover net self wanted = ([EvPost url body], Ok JNull)).
Proof.
  intros url body. subst url body.
  unfold discover, mbind, io_mbind, io_bind, _post, lift. split_and!.
  - intros d first rest -> Hagents. cbn [get]. by rewrite Hagents.
  - intros d -> Hagents. cbn [get]. by rewrite Hagents.
  - by intros code text ->.
Qed.

Lemma client_discover_first_or_none_witness :
  discover {| http_get := λ _, HttpFail (OtherError "unused");
              http_post := λ _ _, HTTPError 400 "No capabilities specified" |}
           requester []
  = ([EvPost "http://localhost:8080/a2a/discover" (JObj [("capabilities", JArr [])])],
     Ok JNull) ∧
  discover {| http_get := λ _, HttpFail (OtherError "unused");
              http_post := λ _ _, HttpOk (JObj [("agents", JArr [JNum 1; JNum 2])]) |}
           requester ["ping"]
  = ([EvPost "http://localhost:8080/a2a/discover"
             (JObj [("capabilities", JArr [JStr "ping"])])],
     Ok (JNum 1)).
Proof.
  split.
  - pose proof (client_discover_first_or_none
                  {| http_get := λ _, HttpFail (OtherError "unused");
                     http_post := λ _ _, HTTPError 400 "No capabilities specified" |}
                  requester []) as H.
    cbv zeta in H. destruct H as (_ & _ & H).
    apply (H 400 "No capabilities specified"). reflexivity.
  - pose proof (client_discover_first_or_none
                  {| http_get := λ _, HttpFail (OtherError "unused");
                     http_post := λ _ _,
                       HttpOk (JObj [("agents", JArr [JNum 1; JNum 2])]) |}
                  requester ["ping"]) as H.
    cbv zeta in H. destruct H as (H & _ & _).
    apply (H [("agents", JArr [JNum 1; JNum 2])] (JNum 1) [JNum 2]); reflexivity.
Defined.

(** X14. Every reply of an agent server has status 200, carries
    "jsonrpc": "2.0" and repeats the id of the request ([null] when the
    request has none), whether it is a result or an error; the handler is
    called at most once; a body that is not a JSON object gets no reply. *)
Theorem server_replies_repeat_id (task_handler : option handler) request calls status body :
  do_POST task_handler request = (calls, Ok (status, body)) →
  ∃ d, request = JObj d ∧
       status = 200 ∧
       item body "jsonrpc" = Ok (JStr "2.0") ∧
       item body "id" = Ok (default JNull (dict_get "id" d)) ∧
       (length calls ≤ 1)%nat.
Proof.
  destruct request as [| | | | |d]; try (intros H; discriminate H).
  intros Hrun. exists d. split; [done|]. revert Hrun.
  unfold do_POST. cbn [get].
  destruct (eq_str (default (JStr "") (dict_get "method" d)) "a2a/task").
  - destruct (default (JObj []) (dict_get "params" d)) as [| | | | |p];
      try (intros H; discriminate H).
    cbn [get]. destruct task_handler as [h|].
    + destruct (h _ _ _) as [out|e]; [|intros H; discriminate H].
      intros [= <- <- <-]. split_and!; [done | done | done | simpl; lia].
    + intros [= <- <- <-]. split_and!; [done | done | done | simpl; lia].
  - intros [= <- <- <-]. split_and!; [done | done | done | simpl; lia].
Qed.

Lemma server_replies_repeat_id_witness :
  ∃ d, JObj [("id", JNum 7); ("method", JStr "nope")] = JObj d ∧
       200 = 200 ∧
       item (error_response (JNum 7) (-32601) "Method not found") "jsonrpc"
       = Ok (JStr "2.0") ∧
       item (error_response (JNum 7) (-32601) "Method not found") "id"
       = Ok (default JNull (dict_get "id" d)) ∧
       (length (@nil call) ≤ 1)%nat.
Proof.
  apply (server_replies_repeat_id None (JObj [("id", JNum 7); ("method", JStr "nope")])
           [] 200 (error_response (JNum 7) (-32601) "Method not found")).
  reflexivity.
Defined.

(** X15. The server that [a2a serve] starts has capabilities split at
    the commas and answers every task envelope whose params is an object:
    status "completed", with an output that repeats the action, the input
    and the sender it was given ([null], the empty object and [null] for
    the ones the envelope lacks). It never answers "No handler registered". *)
Theorem cli_serve_echoes agent_id name capabilities port d p :
  dict_get "method" d = Some (JStr "a2a/task") →
  default (JObj []) (dict_get "params" d) = JObj p →
  let action := default JNull (dict_get "action" p) in
  let input_data := default (JObj []) (dict_get "input" p) in
  let sender := default JNull (dict_get "sender" p) in
  srv_capabilities (cmd_serve agent_id name capabilities port) = split "," capabilities ∧
  serve (cmd_serve agent_id name capabilities port) (JObj d)
  = ([{| call_action := action; call_input := input_data; call_sender := sender |}],
     Ok (200, JObj [("jsonrpc", JStr "2.0");
                    ("id", default JNull (dict_get "id" d));
                    ("result",
                     JObj [("taskId", default JNull (dict_get "taskId" p));
                           ("status", JStr "completed");
                           ("output", JObj [("received_action", action);
                                            ("received_input", input_data);
                                            ("from", sender)])])])).
Proof.
  intros Hmethod Hparams action input_data sender. split; [done|].
  unfold serve, cmd_serve, handle_task, do_POST. cbn [_task_handler get].
  rewrite Hmethod. cbn [default from_option id eq_str String.eqb Ascii.eqb Bool.eqb].
  rewrite Hparams. reflexivity.
Qed.

Lemma cli_serve_echoes_witness :
  serve (cmd_serve "my-agent" "My Agent" "search,analyze" 9001)
        (JObj [("method", JStr "a2a/task"); ("id", JStr "1")])
  = ([{| call_action := JNull; call_input := JObj []; call_sender := JNull |}],
     Ok (200, JObj [("jsonrpc", JStr "2.0");
                    ("id", JStr "1");
                    ("result",
                     JObj [("taskId", JNull);
                           ("status", JStr "completed");
                           ("output", JObj [("received_action", JNull);
                                            ("received_input", JObj []);
                                            ("from", JNull)])])])).
Proof.
  pose proof (cli_serve_echoes "my-agent" "My Agent" "search,analyze" 9001
                [("method", JStr "a2a/task"); ("id", JStr "1")] []
                eq_refl eq_refl) as H.
  cbv zeta in H. destruct H as [_ H]. exact H.
Defined.

(** X16. [a2a discover] always asks for at least one capability: the
    comma-separated argument splits into a non-empty list (the empty
    argument into the one empty capability), it is posted once to the
    directory whose address has lost its trailing slashes, and the
    directory's own handler never answers such a request with 400. *)
Theorem cli_discover_never_empty net directory capabilities AGENTS :
  split "," capabilities ≠ [] ∧
  (cmd_discover net directory capabilities).1
  = [EvPost (rstrip_slash directory +:+ "/a2a/discover")
            (JObj [("capabilities", JArr (map JStr (split "," capabilities)))])] ∧
  (Directory._handle_discover
     {| Directory.dq_capabilities := Some (split "," capabilities) |} AGENTS).1 = 200.
Proof.
  split_and!.
  - apply split_nonempty.
  - unfold cmd_discover, discover, mbind, io_mbind, io_bind, _post, lift.
    cbn [directory_url __init__].
    destruct (http_post net _ _) as [body| |]; [|done|done].
    destruct (get body "agents" (JArr [])) as [agents|]; [|done].
    destruct (truthy agents); [|done].
    destruct (item0 agents) as [first|]; [|done].
    by destruct (truthy first).
  - unfold Directory._handle_discover. simpl.
    pose proof (split_nonempty "," capabilities).
    by destruct (split "," capabilities).
Qed.


End surface_facts.

(** ** Substrings *)

Section substring_facts.

Lemma append_assoc (a b c : string) : (a +:+ b) +:+ c = a +:+ (b +:+ c).
Proof.
  induction a as [|x a IH]; [done|].
  change (String x ((a +:+ b) +:+ c) = String x (a +:+ (b +:+ c))).
  by rewrite IH.
Qed.

Lemma lower_app a b : lower (a +:+ b) = lower a +:+ lower b.
Proof.
  induction a as [|x a IH]; [done|].
  change (String (lower_char x) (lower (a +:+ b))
          = String (lower_char x) (lower a +:+ lower b)).
  by rewrite IH.
Qed.

Lemma prefix_app kw b : String.prefix kw (kw +:+ b) = true.
Proof.
  induction kw as [|x kw IH]; simpl; [by destruct b|].
  destruct (Ascii.ascii_dec x x); [done | congruence].
Qed.

Lemma contains_app_r kw a b : contains kw b = true → contains kw (a +:+ b) = true.
Proof.
  intros Hb. induction a as [|x a IH]; [done|].
  change (String x a +:+ b) with (String x (a +:+ b)).
  cbn [contains]. rewrite IH. apply orb_true_r.
Qed.

Lemma contains_prefix kw b : contains kw (kw +:+ b) = true.
Proof.
  destruct (kw +:+ b) eqn:E.
  - by destruct kw.
  - rewrite <-E. pose proof (prefix_app kw b) as Hp. rewrite E in *.
    cbn [contains]. by rewrite Hp.
Qed.

(** A text that has [kw] somewhere in it contains [kw]. *)
Lemma contains_middle kw a b : contains kw (a +:+ kw +:+ b) = true.
Proof. apply contains_app_r, contains_prefix. Qed.

Lemma append_nil_r (a : string) : a +:+ "" = a.
Proof.
  induction a as [|x a IH]; [done|].
  change (String x (a +:+ "") = String x a). by rewrite IH.
Qed.

Lemma concat_elem sep x (l : list string) :
  x ∈ l → ∃ a b, String.concat sep l = a +:+ x +:+ b.
Proof.
  induction l as [|y l IH]; [by intros ?%elem_of_nil|].
  intros [->|Hin]%elem_of_cons.
  - exists "". destruct l as [|z l].
    + exists "". simpl. by rewrite append_nil_r.
    + by exists (sep +:+ String.concat sep (z :: l)).
  - destruct (IH Hin) as (a & b & Heq). destruct l as [|z l].
    + by apply elem_of_nil in Hin.
    + exists (y +:+ sep +:+ a), b.
      change (String.concat sep (y :: z :: l))
        with (y +:+ sep +:+ String.concat sep (z :: l)).
      by rewrite Heq, !append_assoc.
Qed.

End substring_facts.

(** ** More on the router and the bridge *)

Section bridge_more.
Import Bridge RouterSpec.

(** X17. A keyword of the code category anywhere in the action, in any
    letter case, sends the task to the code agent, whatever the rest of
    the action and whatever the input. *)
Theorem code_keyword_in_action_wins before word after input_data :
  lower word ∈ ["code"; "program"; "implement"; "build"; "function"] →
  _determine_target_agent (before +:+ word +:+ after) input_data
  = target_dict "code" "Code Agent".
Proof.
  intros Hword. unfold _determine_target_agent.
  assert (any_in ["code"; "program"; "implement"; "build"; "function"]
                 (lower (before +:+ word +:+ after)) = true) as ->; [|done].
  rewrite !lower_app. unfold any_in. apply existsb_exists.
  exists (lower word). split; [by apply list_elem_of_In|].
  apply contains_middle.
Qed.

Lemma code_keyword_in_action_wins_witness :
  _determine_target_agent "Please BUILD the report" (JObj [("topic", JStr "data")])
  = target_dict "code" "Code Agent".
Proof.
  apply (code_keyword_in_action_wins "Please " "BUILD" " the report"
           (JObj [("topic", JStr "data")])).
  vm_compute. repeat constructor.
Defined.

(** X18. The API agent is chosen on the action alone: the target is the
    API agent exactly when the action has an api keyword and neither the
    code nor the data category matches; an input that mentions an api
    keyword never selects it. *)
Theorem api_chosen_by_action_only action input_data :
  let a := lower action in
  let i := lower (str input_data) in
  _determine_target_agent action input_data = target_dict "api" "API Agent"
  ↔ any_in ["api"; "integration"; "webhook"; "connect"] a = true ∧
    any_in ["code"; "program"; "implement"; "build"; "function"] a = false ∧
    any_in ["code"; "program"] i = false ∧
    any_in ["data"; "analyze"; "analytics"; "query"; "stats"] a = false ∧
    any_in ["analyze"; "analytics"; "data"] i = false.
Proof.
  intros a i. rewrite determine_target_agent_route. unfold route, rules.
  cbn [first_match]. unfold rule_matches.
  cbn [action_keywords input_keywords target]. fold a i.
  destruct (any_in ["code"; "program"; "implement"; "build"; "function"] a);
    cbn [orb]; [split; [discriminate | intros (_ & ? & _); discriminate]|].
  destruct (any_in ["code"; "program"] i);
    cbn [orb]; [split; [discriminate | intros (_ & _ & ? & _); discriminate]|].
  destruct (any_in ["data"; "analyze"; "analytics"; "query"; "stats"] a);
    cbn [orb]; [split; [discriminate | intros (_ & _ & _ & ? & _); discriminate]|].
  destruct (any_in ["analyze"; "analytics"; "data"] i);
    cbn [orb]; [split; [discriminate | intros (_ & _ & _ & _ & ?); discriminate]|].
  destruct (any_in ["api"; "integration"; "webhook"; "connect"] a);
    cbn [orb]; [done|].
  split; [|intros (? & _); discriminate].
  rewrite any_in_nil. cbn [orb].
  repeat match goal with
         | |- context [if ?b then _ else _] => destruct b
         end; discriminate.
Qed.

Lemma repr_object_has_key d k :
  k ∈ dict_keys d → ∃ a b, str (JObj d) = a +:+ repr_str k +:+ b.
Proof.
  intros (kv & -> & Hin)%list_elem_of_fmap.
  assert (repr_str kv.1 +:+ ": " +:+ repr kv.2
          ∈ map (λ kv, repr_str kv.1 +:+ ": " +:+ repr kv.2) d) as Helem
    by by apply (list_elem_of_fmap_2 (λ kv, repr_str kv.1 +:+ ": " +:+ repr kv.2)).
  destruct (concat_elem ", " _ _ Helem) as (a & b & Heq).
  exists ("{" +:+ a), (": " +:+ repr kv.2 +:+ b +:+ "}").
  cbn [str repr]. unfold join. rewrite Heq.
  by rewrite !append_assoc.
Qed.

(** X19. The keys of the input count as text: an input object with a key
    named "code" or "program" is routed to the code agent whatever the
    action, and one with a key named "data", "analyze" or "analytics" is
    routed to the code agent or the data agent, never further. *)
Theorem input_key_routes action d k :
  k ∈ dict_keys d →
  (k ∈ ["code"; "program"] →
   _determine_target_agent action (JObj d) = target_dict "code" "Code Agent") ∧
  (k ∈ ["data"; "analyze"; "analytics"] →
   _determine_target_agent action (JObj d) = target_dict "code" "Code Agent" ∨
   _determine_target_agent action (JObj d) = target_dict "data" "Data Agent").
Proof.
  intros Hk. destruct (repr_object_has_key d k Hk) as (a & b & Hstr).
  assert (∀ kw, repr_str k = "'" +:+ kw +:+ "'" → lower kw = kw →
                contains kw (lower (str (JObj d))) = true) as Hcontains.
  { intros kw Hrepr Hlow. rewrite Hstr, Hrepr, !lower_app, Hlow.
    rewrite !append_assoc, <-(append_assoc (lower a) (lower "'")).
    apply contains_middle. }
  unfold _determine_target_agent. split.
  - intros Hcode.
    destruct (any_in ["code"; "program"; "implement"; "build"; "function"] _);
      [done|].
    repeat (apply elem_of_cons in Hcode as [->|Hcode];
            [rewrite ?(Hcontains "code"), ?(Hcontains "program") by reflexivity;
             by rewrite ?orb_true_r|]).
    by apply elem_of_nil in Hcode.
  - intros Hdata.
    destruct (any_in ["code"; "program"; "implement"; "build"; "function"] _);
      [by left|].
    destruct (contains "code" _ || contains "program" _); [by left|].
    destruct (any_in ["data"; "analyze"; "analytics"; "query"; "stats"] _);
      [by right|].
    repeat (apply elem_of_cons in Hdata as [->|Hdata];
            [rewrite ?(Hcontains "data"), ?(Hcontains "analyze"),
               ?(Hcontains "analytics") by reflexivity;
             rewrite ?orb_true_r; by right|]).
    by apply elem_of_nil in Hdata.
Qed.

Lemma input_key_routes_witness :
  _determine_target_agent "write a poem" (JObj [("style", JStr "haiku"); ("code", JNull)])
  = target_dict "code" "Code Agent".
Proof.
  apply (input_key_routes "write a poem" [("style", JStr "haiku"); ("code", JNull)] "code").
  - vm_compute. repeat constructor.
  - repeat constructor.
Defined.

Lemma handle_task_via_execute run d p task_id action input_data agent_id nm :
  get (JObj d) "params" (JObj []) = Ok (JObj p) →
  get (JObj d) "id" (JStr "unknown") = Ok task_id →
  get (JObj p) "action" (JStr "") = Ok (JStr action) →
  get (JObj p) "input" (JObj []) = Ok input_data →
  _determine_target_agent action input_data = target_dict agent_id nm →
  _handle_task run (JObj d)
  = (output ← _execute_agent run (JStr agent_id) action input_data;
     Ok (200, task_response task_id output)).
Proof.
  intros Hparams Hid Haction Hinput Htarget.
  unfold _handle_task. rewrite Hparams. step. rewrite Hid. step.
  cbn [get] in *. step. injection Haction as ->. injection Hinput as ->. step.
  cbn [as_str]. step. rewrite Htarget. reflexivity.
Qed.

(** X20. The bridge answers a task unless the prompt cannot be built.
    [_handle_task] raises AttributeError and sends nothing when the request
    is not an object, when its params is there and not an object, when its
    action is there and not a string, and when the action is "research" or
    "write" and the input is there and not an object. In every other case
    it answers 200 with the request's id (or "unknown") as id and taskId,
    status "completed", and an output of two fields: a result or an error
    text, and as agent the agent_id of the target the router chose. *)
Theorem bridge_answers_unless_prompt_fails (run : backend) request :
  (answerable request = false → _handle_task run request = Raise AttributeError) ∧
  (answerable request = true →
   ∃ d p action agent_id key text,
     request = JObj d ∧
     default (JObj []) (dict_get "params" d) = JObj p ∧
     default (JStr "") (dict_get "action" p) = JStr action ∧
     item (_determine_target_agent action (default (JObj []) (dict_get "input" p)))
          "agent_id"
     = Ok (JStr agent_id) ∧
     (key = "result" ∨ key = "error") ∧
     _handle_task run request
     = Ok (200,
           JObj [("jsonrpc", JStr "2.0");
                 ("id", default (JStr "unknown") (dict_get "id" d));
                 ("result",
                  JObj [("taskId", default (JStr "unknown") (dict_get "id" d));
                        ("status", JStr "completed");
                        ("output", JObj [(key, JStr text);
                                         ("agent", JStr agent_id)])])])).
Proof.
  destruct request as [| | | | |d];
    try (split; [reflexivity | discriminate]).
  unfold answerable.
  destruct (default (JObj []) (dict_get "params" d)) as [| | | | |p] eqn:Hparams;
    try (split; [intros _; unfold _handle_task; cbn [get]; step;
                 rewrite Hparams; reflexivity | discriminate]).
  destruct (default (JStr "") (dict_get "action" p)) as [| | |action| |] eqn:Haction;
    try (split; [intros _; unfold _handle_task; cbn [get]; step;
                 rewrite Hparams; step; cbn [get]; step; rewrite Haction;
                 reflexivity | discriminate]).
  destruct (determine_target_agent_cases action
              (default (JObj []) (dict_get "input" p)))
    as (agent_id & nm & Htarget & _).
  rewrite (handle_task_via_execute run d p
             (default (JStr "unknown") (dict_get "id" d)) action
             (default (JObj []) (dict_get "input" p)) agent_id nm);
    [| by cbn [get]; rewrite ?Hparams, ?Haction ..| exact Htarget].
  unfold _execute_agent, build_prompt. split.
  - intros Hno.
    destruct (String.eqb action "research"); cbn [orb] in Hno;
      [|destruct (String.eqb action "write"); [|discriminate Hno]];
      by destruct (default (JObj []) (dict_get "input" p)).
  - intros Hyes. exists d, p, action, agent_id.
    assert (∃ prompt, build_prompt action (default (JObj []) (dict_get "input" p))
                      = Ok prompt) as [prompt Hprompt].
    { unfold build_prompt.
      destruct (String.eqb action "research"); cbn [orb] in Hyes;
        [|destruct (String.eqb action "write")];
        [destruct (default (JObj []) (dict_get "input" p)); [done..|by eexists]
        |destruct (default (JObj []) (dict_get "input" p)); [done..|by eexists]
        |by eexists]. }
    fold (build_prompt action (default (JObj []) (dict_get "input" p))).
    rewrite Hprompt. step. rewrite Htarget.
    destruct (run _ 120) as [rc out err| |msg].
    + destruct (rc =? 0).
      * destruct (negb (String.eqb (strip out) "")); eexists "result", _;
          (split_and!; [done | done | done | done | by left | reflexivity]).
      * eexists "error", _.
        split_and!; [done | done | done | done | by right | reflexivity].
    + eexists "error", _.
      split_and!; [done | done | done | done | by right | reflexivity].
    + eexists "error", _.
      split_and!; [done | done | done | done | by right | reflexivity].
Qed.

Lemma bridge_answers_unless_prompt_fails_witness :
  _handle_task failing_backend
    (JObj [("id", JStr "t1");
           ("params", JObj [("action", JStr "research"); ("input", JStr "AI agents")])])
  = Raise AttributeError ∧
  _handle_task failing_backend (JObj [("id", JStr "t1"); ("params", JNull)])
  = Raise AttributeError ∧
  _handle_task failing_backend
    (JObj [("id", JStr "t1"); ("params", JObj [("action", JNum 7)])])
  = Raise AttributeError ∧
  ∃ agent_id key text,
    (key = "result" ∨ key = "error") ∧
    _handle_task failing_backend
      (JObj [("id", JStr "t1");
             ("params", JObj [("action", JStr "research");
                              ("input", JObj [("query", JStr "AI agents")])])])
    = Ok (200,
          JObj [("jsonrpc", JStr "2.0");
                ("id", JStr "t1");
                ("result",
                 JObj [("taskId", JStr "t1");
                       ("status", JStr "completed");
                       ("output", JObj [(key, JStr text);
                                        ("agent", JStr agent_id)])])]).
Proof.
  split_and!.
  - by apply (bridge_answers_unless_prompt_fails failing_backend).
  - by apply (bridge_answers_unless_prompt_fails failing_backend).
  - by apply (bridge_answers_unless_prompt_fails failing_backend).
  - destruct (bridge_answers_unless_prompt_fails failing_backend
                (JObj [("id", JStr "t1");
                       ("params", JObj [("action", JStr "research");
                                        ("input", JObj [("query", JStr "AI agents")])])]))
      as [_ Hyes].
    destruct (Hyes eq_refl) as (d & p & action & agent_id & key & text
                                & [= <-] & _ & _ & _ & Hkey & Hreply).
    by exists agent_id, key, text.
Defined.

Lemma lstrip_head s c r : lstrip s = String c r → is_space c = false.
Proof.
  induction s as [|a s IH]; [done|]. cbn [lstrip].
  destruct (is_space a) eqn:E; [done|]. by intros [= <- _].
Qed.

Lemma rstrip_with_head p c r c' r' :
  rstrip_with p (String c r) = String c' r' → c' = c.
Proof.
  cbn [rstrip_with]. destruct (rstrip_with p r); [|by intros [= <- _]].
  destruct (p c); [done | by intros [= <- _]].
Qed.

(** X21. A backend run that exits with code 0 is reported as a result,
    never as an error: the output has the two fields result and agent, the
    agent being the id the backend was run with, and a result text that is
    not empty: the standard output without the whitespace around it, which
    then neither begins nor ends with a whitespace character, or
    "Task completed" when the output is blank. The error stream of a
    successful run is dropped. *)
Theorem execute_agent_success (run : backend) agent_id action input_data prompt
    stdout stderr :
  build_prompt action input_data = Ok prompt →
  run [JStr "opengoat"; JStr "agent"; JStr "run"; agent_id; JStr "--message"; prompt]
      120
  = Completed 0 stdout stderr →
  ∃ text,
    _execute_agent run agent_id action input_data
    = Ok (JObj [("result", JStr text); ("agent", agent_id)]) ∧
    text ≠ "" ∧
    (strip stdout = "" → text = "Task completed") ∧
    (strip stdout ≠ "" →
     text = strip stdout ∧
     (∀ c r, text = String c r → is_space c = false) ∧
     (∀ r c, text = r +:+ String c "" → is_space c = false)).
Proof.
  intros Hprompt Hrun. unfold _execute_agent. rewrite Hprompt. step.
  rewrite Hrun. cbn [Z.eqb].
  destruct (String.eqb (strip stdout) "") eqn:E; cbn [negb].
  - apply String.eqb_eq in E. exists "Task completed".
    split_and!; [done | done | done | by intros []].
  - apply String.eqb_neq in E. exists (strip stdout).
    split_and!; [done | done | done |].
    intros _. split_and!; [done | |].
    + unfold strip. intros c r Hstrip.
      destruct (lstrip stdout) as [|c0 r0] eqn:El; [done|].
      apply rstrip_with_head in Hstrip as ->. by apply lstrip_head in El.
    + unfold strip. intros r c Hstrip. by apply rstrip_with_last in Hstrip.
Qed.

Lemma execute_agent_success_witness :
  _execute_agent (λ _ _, Completed 0 (" ok " +:+ newline) "warning")
                 (JStr "researcher") "summarize" (JObj [])
  = Ok (JObj [("result", JStr "ok"); ("agent", JStr "researcher")]).
Proof.
  destruct (execute_agent_success (λ _ _, Completed 0 (" ok " +:+ newline) "warning")
              (JStr "researcher") "summarize" (JObj [])
              (JStr ("Action: summarize" +:+ newline +:+ "Input: {}"))
              (" ok " +:+ newline) "warning" eq_refl eq_refl)
    as (text & Hexec & _ & _ & Hstrip).
  destruct Hstrip as [-> _]; [vm_compute; discriminate | exact Hexec].
Defined.

End bridge_more.

(** ** What the bridge asks of the backend, and what discovery finds *)

Section composition_facts.
Import Bridge RouterSpec.

(** X22. The bridge's answer depends on the backend through one kind of
    run only: [opengoat agent run <target> --message <prompt>] for one of
    the five targets, under the 120-second timeout. Two backends that agree
    on those runs make [_handle_task] answer every request alike. *)
Theorem bridge_uses_backend_only_for_target_runs (run1 run2 : backend) request :
  (∀ agent_id prompt,
     agent_id ∈ ["code"; "data"; "api"; "researcher"; "writer"] →
     run1 (command (JStr agent_id) prompt) 120
     = run2 (command (JStr agent_id) prompt) 120) →
  _handle_task run1 request = _handle_task run2 request.
Proof.
  intros Hagree. unfold _handle_task.
  destruct (get request "params" (JObj [])) as [params|]; step; [|done].
  destruct (get request "id" (JStr "unknown")) as [task_id|]; step; [|done].
  destruct (get params "sender" (JStr "unknown")) as [sender|]; step; [|done].
  destruct (get params "action" (JStr "")) as [act|]; step; [|done].
  destruct (get params "input" (JObj [])) as [inp|]; step; [|done].
  destruct (as_str act) as [action|]; step; [|done].
  destruct (determine_target_agent_cases action inp) as (agent_id & nm & -> & Hin).
  cbn [truthy target_dict negb item dict_get String.eqb Ascii.eqb Bool.eqb]. step.
  unfold _execute_agent.
  destruct (build_prompt action inp) as [prompt|]; step; [|done].
  fold (command (JStr agent_id) prompt). by rewrite (Hagree agent_id prompt Hin).
Qed.

Lemma bridge_uses_backend_only_for_target_runs_witness :
  _handle_task failing_backend summarize_request
  = _handle_task (λ cmd timeout, if timeout =? 120 then Completed 1 "" "boom"
                                 else TimeoutExpired)
                 summarize_request.
Proof.
  apply (bridge_uses_backend_only_for_target_runs failing_backend
           (λ cmd timeout, if timeout =? 120 then Completed 1 "" "boom"
                           else TimeoutExpired)
           summarize_request).
  reflexivity.
Defined.

End composition_facts.

Section discoverable_facts.
Import Directory Spec.

(** X23. A registered agent is found by each of its capabilities, and by
    those only: after a valid registration, [discover] of a wanted list
    that shares a capability with the request returns the new record; and
    in a registry with unique ids, a record that [discover] returns under
    that id is the new one, so what the id advertised before no longer
    counts. *)
Theorem registered_agent_is_discoverable now agent_id nm caps ep AGENTS W :
  W ≠ [] →
  ∃ found,
    _handle_discover {| dq_capabilities := Some W |}
      (after_register now (valid_request agent_id nm caps ep) AGENTS)
    = (200, Agents found) ∧
    (intersects W caps → stored now agent_id nm caps ep ∈ found) ∧
    (registry_inv AGENTS →
     ∀ a, a ∈ found → agentId a = agent_id →
          a = stored now agent_id nm caps ep ∧ intersects W caps).
Proof.
  intros HW. rewrite after_register_valid. eexists. split_and!.
  - unfold _handle_discover. simpl. rewrite discover_loop_filter. by destruct W.
  - intros Hmeet. apply list_elem_of_filter. split; [done|].
    apply (list_elem_of_fmap_2 snd _ (agent_id, stored now agent_id nm caps ep)).
    apply dict_set_elem_new.
  - intros [Hnd Hid] a Ha Hida.
    apply list_elem_of_filter in Ha as [Hmeet Ha].
    apply list_elem_of_fmap in Ha as (kv & -> & Hkv).
    apply dict_set_elem in Hkv as [->|[Hkv Hne]]; [done | | done].
    destruct Hne. rewrite <-Hida. symmetry.
    by apply (proj1 (Forall_forall _ _) Hid).
Qed.

Lemma registered_agent_is_discoverable_witness :
  ∃ found,
    _handle_discover {| dq_capabilities := Some ["ping"; "code"] |} echo_registry
    = (200, Agents found) ∧ echo_record ∈ found.
Proof.
  destruct (registered_agent_is_discoverable "2024-01-01T00:00:00" "echo-agent"
              "Echo Agent" ["echo"; "ping"] "http://localhost:9001" []
              ["ping"; "code"]) as (found & Hfound & Hin & _); [discriminate|].
  exists found. split; [exact Hfound|].
  apply Hin. exists "ping". split; repeat constructor.
Defined.

End discoverable_facts.
